(** * vy plugins: case conversion (caps.py) and the IRC client (vyirc.py)

    A shallow embedding of the two plugin modules, with the properties
    their specification states.  The plugins are Python 2 glue code on
    top of a Tk text widget and of an event-driven networking framework;
    what those collaborators do is written out here as explicit state
    passing over a small world record. *)

From Stdlib Require Import String Ascii List Bool Arith ZArith Lia.
Import ListNotations.
Open Scope string_scope.

(** ** Python values the plugins compute with *)

Module Py.

(** The exceptions that can travel through the plugin code. *)
Inductive exn : Type :=
| AttributeError
| IndexError
| KeyError
| StopIteration
| TypeError
| ValueError
| TclError.

(** A Python call either returns or raises. *)
Inductive result (A : Type) : Type :=
| Ok (a : A)
| Raise (e : exn).
Arguments Ok {A} a.
Arguments Raise {A} e.

Definition bind {A B} (c : result A) (k : A -> result B) : result B :=
  match c with
  | Ok a => k a
  | Raise e => Raise e
  end.

(** [try: c except e: h] *)
Definition try_except {A} (c : result A) (e : exn -> bool) (h : result A)
  : result A :=
  match c with
  | Ok a => Ok a
  | Raise x => if e x then h else Raise x
  end.

Definition exn_eqb (a b : exn) : bool :=
  match a, b with
  | AttributeError, AttributeError | IndexError, IndexError
  | KeyError, KeyError | StopIteration, StopIteration
  | TypeError, TypeError | ValueError, ValueError
  | TclError, TclError => true
  | _, _ => false
  end.

Definition nl : string := String "010"%char EmptyString.

(** [str.lower] and [str.upper] on a byte string: the ASCII letters
    change case, every other byte is kept.  Text that has letters outside
    ASCII reaches the plugins as [unicode], whose methods change those
    letters too: such text is outside what these two functions model. *)
Definition lower_char (c : ascii) : ascii :=
  let n := nat_of_ascii c in
  if ((65 <=? n) && (n <=? 90))%nat then ascii_of_nat (n + 32) else c.

Definition upper_char (c : ascii) : ascii :=
  let n := nat_of_ascii c in
  if ((97 <=? n) && (n <=? 122))%nat then ascii_of_nat (n - 32) else c.

Fixpoint smap (f : ascii -> ascii) (s : string) : string :=
  match s with
  | EmptyString => EmptyString
  | String c r => String (f c) (smap f r)
  end.

Definition lower : string -> string := smap lower_char.
Definition upper : string -> string := smap upper_char.

(** [fmt % args] for the format strings of the plugins, whose only
    conversion is [%s]. *)
Fixpoint format (f : string) (args : list string) : result string :=
  match f with
  | EmptyString =>
      match args with
      | [] => Ok EmptyString
      | _ :: _ => Raise TypeError
      end
  | String c r =>
      if Ascii.eqb c "%"
      then match r with
           | String d r' =>
               if Ascii.eqb d "s"
               then match args with
                    | a :: args' =>
                        bind (format r' args') (fun t => Ok (a ++ t))
                    | [] => Raise TypeError
                    end
               else Raise ValueError
           | EmptyString => Raise ValueError
           end
      else bind (format r args) (fun t => Ok (String c t))
  end.

(** [range(start, stop, step)] for a positive step. *)
Definition range (start stop step : Z) : list Z :=
  map (fun k => (start + step * Z.of_nat k)%Z)
      (seq 0 (Z.to_nat ((stop - start + step - 1) / step))).

(** [t[i]] on a tuple, for a non-negative index. *)
Definition getitem {A} (t : list A) (i : Z) : result A :=
  if (i <? 0)%Z then Raise IndexError
  else match nth_error t (Z.to_nat i) with
       | Some x => Ok x
       | None => Raise IndexError
       end.

End Py.

Notation "x <- c ;; k" := (Py.bind c (fun x => k))
  (at level 61, c at next level, right associativity).
Notation "' p <- c ;; k" := (Py.bind c (fun p => k))
  (at level 61, p pattern, c at next level, right associativity).

(** ** caps.py *)

Module Caps.
Import Py.

(** Modelled from the spec: the editor's text widget [AreaVi] is not part
    of the plugin files.  For the case-conversion commands a widget is its
    text and the ranges of its [sel] tag; an index is a character offset.
    [tag_ranges] returns the flat tuple [(start1, end1, start2, end2, ...)],
    [get] reads a range and [swap] replaces a range by the given data:
    it deletes the range and inserts the data where the range began. *)
Record AreaVi : Type := {
  text : string;
  sel  : list nat
}.

Definition tag_ranges (a : AreaVi) : list nat := sel a.

Definition get (a : AreaVi) (i j : nat) : string :=
  substring i (j - i) (text a).

(** Where an offset is once the characters from [i] up to [j] are
    gone. *)
Definition after_delete (i j p : nat) : nat :=
  if (p <=? i)%nat then p else if (p <? j)%nat then i else p - (j - i).

(** The ranges of a tag with their starts and ends moved; a range left
    without characters is dropped. *)
Fixpoint moved (start_ end_ : nat -> nat) (ranges : list nat) : list nat :=
  match ranges with
  | s :: e :: r =>
      if (start_ s <? end_ e)%nat
      then start_ s :: end_ e :: moved start_ end_ r
      else moved start_ end_ r
  | _ => []
  end.

(** Ranges that have come to touch are one range. *)
Fixpoint joined_up (ranges : list nat) : list nat :=
  match ranges with
  | s :: e :: r =>
      match joined_up r with
      | s' :: r' => if Nat.eqb e s' then s :: r' else s :: e :: s' :: r'
      | [] => [s; e]
      end
  | _ => []
  end.

(** [delete(index0, index1)]: nothing happens unless the first index is
    before the second; the characters deleted take their tags with them. *)
Definition delete (a : AreaVi) (i j : nat) : AreaVi :=
  let n := String.length (text a) in
  let i := Nat.min i n in
  let j := Nat.min j n in
  if (i <? j)%nat
  then {| text := substring 0 i (text a) ++ substring j (n - j) (text a);
          sel := joined_up (moved (after_delete i j) (after_delete i j)
                                  (sel a)) |}
  else a.

(** [insert(index, data)]: the new characters have a tag only when the
    characters on both sides of them have it. *)
Definition insert (a : AreaVi) (i : nat) (data : string) : AreaVi :=
  let n := String.length (text a) in
  let i := Nat.min i n in
  let k := String.length data in
  {| text := substring 0 i (text a) ++ data ++ substring i (n - i) (text a);
     sel := moved (fun p => if (i <=? p)%nat then p + k else p)
                  (fun p => if (i <? p)%nat then p + k else p) (sel a) |}.

Definition swap (a : AreaVi) (data : string) (i j : nat) : AreaVi :=
  insert (delete a i j) i data.

(** One call of [area.swap], as the widget receives it. *)
Record swap_call : Type := {
  swap_data : string;
  swap_from : nat;
  swap_to   : nat
}.

(** The body of the [for] loop shared by [lower] and [upper]; [conv] is
    the string method applied to the selected text. *)
Definition step (conv : string -> string) (map : list nat)
    (st : AreaVi * list swap_call) (index : Z)
  : result (AreaVi * list swap_call) :=
  let '(area, calls) := st in
  i <- getitem map index ;;
  j <- getitem map (index + 1) ;;
  let data := conv (get area i j) in
  Ok (swap area data i j,
      (calls ++ [{| swap_data := data; swap_from := i; swap_to := j |}])%list).

Fixpoint for_each {S} (body : S -> Z -> result S) (l : list Z) (st : S)
  : result S :=
  match l with
  | [] => Ok st
  | x :: r => st' <- body st x ;; for_each body r st'
  end.

Definition transform (conv : string -> string) (ACTIVE area : AreaVi)
  : result (AreaVi * list swap_call) :=
  let map := tag_ranges ACTIVE in
  for_each (step conv map)
           (range 0 (Z.of_nat (List.length map) - 1) 2) (area, []).

(** [lower(area)]: the ranges come from [AreaVi.ACTIVE], the text is read
    from and written to [area]. *)
Definition lower (ACTIVE area : AreaVi) : result (AreaVi * list swap_call) :=
  transform Py.lower ACTIVE area.

Definition upper (ACTIVE area : AreaVi) : result (AreaVi * list swap_call) :=
  transform Py.upper ACTIVE area.

End Caps.

(** ** vyirc.py *)

Module Vyirc.
Import Py.

(** *** The formatting strings *)

Definition H1 : string := "<%s> %s" ++ nl.
Definition H2 : string := "Topic :%s" ++ nl.
Definition H3 : string := ">>> %s has left %s <<<" ++ nl.
Definition H4 : string := ">>> %s has joined %s <<<" ++ nl.
Definition H5 : string := ">>> %s is now known as %s <<<" ++ nl.
Definition H6 : string := "Peers:%s" ++ nl.
Definition H7 : string := ">>> %s has quit (%s) <<<" ++ nl.
Definition H8 : string := ">>> %s has kicked %s from %s (%s) <<<" ++ nl.
Definition H9 : string := ">>> %s sets mode %s %s on %s <<<" ++ nl.

(** *** Events, closures and key commands *)

(** What a handler can be registered on: the framework's own constants
    and the string names of protocol events. *)
Inductive event : Type :=
| CONNECT
| CONNECT_ERR
| CLOSE
| FOUND
| Ev (name : string).

Definition event_eqb (a b : event) : bool :=
  match a, b with
  | CONNECT, CONNECT | CONNECT_ERR, CONNECT_ERR
  | CLOSE, CLOSE | FOUND, FOUND => true
  | Ev x, Ev y => String.eqb x y
  | _, _ => false
  end.

(** The function objects the plugin registers on the connection.  A
    lambda is a new object each time its definition runs; the widget it
    closes over, which is new for each run of the enclosing method,
    tells the objects of different runs apart. *)
Inductive handler : Type :=
| set_up_con_h                          (* self.set_up_con *)
| on_connect_err_h                      (* self.on_connect_err *)
| close_h                               (* lambda con, err: lose(con) *)
| irccmd_h                              (* lambda con, *args: send_cmd(con, self.irccmd) *)
| auto_join_h                           (* self.auto_join *)
| irc_l1 (area : nat)                   (* set_common_irc_handles: l1 *)
| irc_l2                                (* set_common_irc_handles: l2 *)
| irc_l3 (area : nat)                   (* set_common_irc_handles: l3 *)
| deliver_user_msg_h                    (* self.deliver_user_msg *)
| l1 (area : nat)
| l2 (area : nat)
| l3 (area : nat) (chan : string)
| l4 (area : nat) (chan : string)
| l5 (area : nat)
| l6 (area : nat)
| l7 (area : nat)
| l8 (area : nat) (chan : string)
| l9 (area : nat)
| unset (area : nat) (chan : string).

Definition handler_eqb (a b : handler) : bool :=
  match a, b with
  | set_up_con_h, set_up_con_h | on_connect_err_h, on_connect_err_h
  | close_h, close_h | irccmd_h, irccmd_h | auto_join_h, auto_join_h
  | irc_l2, irc_l2 | deliver_user_msg_h, deliver_user_msg_h => true
  | irc_l1 x, irc_l1 y | irc_l3 x, irc_l3 y | l1 x, l1 y | l2 x, l2 y
  | l5 x, l5 y | l6 x, l6 y | l7 x, l7 y | l9 x, l9 y => Nat.eqb x y
  | l3 x c, l3 y d | l4 x c, l4 y d | l8 x c, l8 y d
  | unset x c, unset y d => Nat.eqb x y && String.eqb c d
  | _, _ => false
  end.

(** The callbacks bound to key sequences of a widget. *)
Inductive command : Type :=
| chmode_IRC              (* lambda event: event.widget.chmode('IRC') *)
| send_cmd_c              (* lambda event: self.send_cmd(event.widget, con) *)
| start_user_chat_c       (* lambda event: self.start_user_chat(event.widget, con) *)
| complete_nick_c         (* lambda event: self.complete_nick(event.widget) *)
| reset_c                 (* lambda event: self.reset(event.widget) *)
| e1 (chan : string)      (* lambda event: self.send_msg(event.widget, chan, con) *)
| part_c (chan : string). (* lambda event: send_cmd(con, 'PART %s' % chan) *)

(** *** The text widget *)

Inductive index : Type :=
| End_                    (* 'end' *)
| At (offset : nat)       (* '1.0' is [At 0] *)
| Mark (name : string).

(** Modelled from the spec: the widget class [AreaVi] and the notebook
    [root.note] belong to the editor, not to the plugin files.  A widget
    is a display surface: a tab name, a text, named marks in the text (the
    fixed insertion mark [CHDATA] among them), the editing modes added to
    it with the current one, and the callbacks bound to key sequences per
    mode. *)
Record AreaVi : Type := {
  wid      : nat;
  filename : string;
  text     : string;
  marks    : list (string * nat);
  modes    : list string;
  mode     : string;
  hooks    : list (string * string * command);
  on_destroy : list command
}.

(** What the outside can observe, in the order it happens. *)
Inductive effect : Type :=
| Dump (data : string)                  (* a line handed to the connection *)
| Create (w : nat) (name : string)      (* a new tab *)
| Insert (w : nat) (i : index) (data : string)
| Complete (w : nat) (word : string)    (* the word at the cursor replaced *)
| Lose                                  (* the connection given up *)
| Print (s : string).

(** *** The session object and the world around it *)

(** The framework's [Misc] object, made by [Misc(con)]: it keeps the nick
    the server knows the session by, empty until the server has said it. *)
Record Misc : Type := { Misc_nick : string }.

(** The generator [area.complete_word(area.master)]: the widget it edits
    and the candidates it has not produced yet. *)
Definition generator : Type := (nat * list string)%type.

Record IrcMode : Type := {
  addr     : string;
  port     : Z;
  user     : string;
  nick     : string;
  irccmd   : string;
  channels : list string;
  misc     : option Misc;
  seq      : option generator        (* [None]: the attribute is not set *)
}.

Record World : Type := {
  self     : IrcMode;
  note     : list AreaVi;            (* the open tabs, newest first *)
  next_wid : nat;
  base     : list (event * handler); (* the connection's bindings, oldest first *)
  trace    : list effect
}.

Definition set_self (f : IrcMode -> IrcMode) (w : World) : World :=
  {| self := f (self w); note := note w; next_wid := next_wid w;
     base := base w; trace := trace w |}.

Definition set_note (n : list AreaVi) (w : World) : World :=
  {| self := self w; note := n; next_wid := next_wid w;
     base := base w; trace := trace w |}.

Definition set_base (b : list (event * handler)) (w : World) : World :=
  {| self := self w; note := note w; next_wid := next_wid w;
     base := b; trace := trace w |}.

Definition emit (e : effect) (w : World) : World :=
  {| self := self w; note := note w; next_wid := next_wid w;
     base := base w; trace := (trace w ++ [e])%list |}.

Definition set_misc (m : option Misc) (s : IrcMode) : IrcMode :=
  {| addr := addr s; port := port s; user := user s; nick := nick s;
     irccmd := irccmd s; channels := channels s; misc := m; seq := seq s |}.

Definition set_seq (g : option generator) (s : IrcMode) : IrcMode :=
  {| addr := addr s; port := port s; user := user s; nick := nick s;
     irccmd := irccmd s; channels := channels s; misc := misc s; seq := g |}.

(** The lines sent to the server so far. *)
Definition sent (w : World) : list string :=
  flat_map (fun e => match e with Dump d => [d] | _ => [] end) (trace w).

(** *** Dictionaries *)

(** A [dict] with string keys, as its items; assigning to a key that is
    present replaces the value in place. *)
Section Dict.
Context {V : Type}.

Definition dict : Type := list (string * V).

Fixpoint dict_setitem (d : dict) (k : string) (v : V) : dict :=
  match d with
  | [] => [(k, v)]
  | (k', v') :: r =>
      if String.eqb k' k then (k', v) :: r
      else (k', v') :: dict_setitem r k v
  end.

Fixpoint dict_get (d : dict) (k : string) : option V :=
  match d with
  | [] => None
  | (k', v') :: r => if String.eqb k' k then Some v' else dict_get r k
  end.

(** [d[k]] *)
Definition dict_getitem (d : dict) (k : string) : result V :=
  match dict_get d k with
  | Some v => Ok v
  | None => Raise KeyError
  end.

(** [dict(items)] *)
Definition dict_of_items (items : list (string * V)) : dict :=
  fold_left (fun d kv => dict_setitem d (fst kv) (snd kv)) items [].

Definition iteritems (d : dict) : list (string * V) := d.
End Dict.
Arguments dict V : clear implicits.

(** *** Widget operations *)

Definition new_area (a : nat) (name : string) : AreaVi :=
  {| wid := a; filename := name; text := EmptyString; marks := [];
     modes := []; mode := "NORMAL"; hooks := []; on_destroy := [] |}.

Definition offset_of (x : AreaVi) (i : index) : result nat :=
  match i with
  | End_ => Ok (String.length (text x))
  | At n => Ok (Nat.min n (String.length (text x)))
  | Mark m =>
      match dict_get (marks x) m with
      | Some p => Ok p
      | None => Raise TclError
      end
  end.

(** [insert]: the text goes in at the index, and a mark at or after that
    place moves behind the inserted text. *)
Definition insert_text (i : index) (data : string) (x : AreaVi)
  : result AreaVi :=
  p <- offset_of x i ;;
  Ok {| wid := wid x; filename := filename x;
        text := substring 0 p (text x) ++ data
                ++ substring p (String.length (text x) - p) (text x);
        marks := map (fun m => (fst m, if (p <=? snd m)%nat
                                       then snd m + String.length data
                                       else snd m)) (marks x);
        modes := modes x; mode := mode x; hooks := hooks x;
        on_destroy := on_destroy x |}.

Definition mark_set_text (name : string) (i : index) (x : AreaVi)
  : result AreaVi :=
  p <- offset_of x i ;;
  Ok {| wid := wid x; filename := filename x; text := text x;
        marks := dict_setitem (marks x) name p;
        modes := modes x; mode := mode x; hooks := hooks x;
        on_destroy := on_destroy x |}.

Definition set_modes (ms : list string) (m : string) (x : AreaVi) : AreaVi :=
  {| wid := wid x; filename := filename x; text := text x; marks := marks x;
     modes := ms; mode := m; hooks := hooks x; on_destroy := on_destroy x |}.

Definition set_hooks (h : list (string * string * command))
    (d : list command) (x : AreaVi) : AreaVi :=
  {| wid := wid x; filename := filename x; text := text x; marks := marks x;
     modes := modes x; mode := mode x; hooks := h; on_destroy := d |}.

(** Any operation on a widget that is no longer there is a [TclError]. *)
Fixpoint update (a : nat) (f : AreaVi -> result AreaVi) (l : list AreaVi)
  : result (list AreaVi) :=
  match l with
  | [] => Raise TclError
  | x :: r =>
      if Nat.eqb (wid x) a then y <- f x ;; Ok (y :: r)
      else r' <- update a f r ;; Ok (x :: r')
  end.

Definition with_area (a : nat) (f : AreaVi -> result AreaVi) (w : World)
  : result World :=
  n <- update a f (note w) ;; Ok (set_note n w).

(** [root.note.create(name)] *)
Definition note_create (name : string) (w : World) : nat * World :=
  let a := next_wid w in
  (a, emit (Create a name)
        {| self := self w; note := new_area a name :: note w;
           next_wid := S a; base := base w; trace := trace w |}).

Definition insert (a : nat) (i : index) (data : string) (w : World)
  : result World :=
  w' <- with_area a (insert_text i data) w ;; Ok (emit (Insert a i data) w').

Definition mark_set (a : nat) (name : string) (i : index) (w : World)
  : result World :=
  with_area a (mark_set_text name i) w.

(** [insee]: insert, then scroll the view to the place. *)
Definition insee (a : nat) (i : index) (data : string) (w : World)
  : result World :=
  insert a i data w.

Definition add_mode (a : nat) (m : string) (w : World) : result World :=
  with_area a (fun x => Ok (set_modes (modes x ++ [m])%list (mode x) x)) w.

Definition chmode (a : nat) (m : string) (w : World) : result World :=
  with_area a (fun x => Ok (set_modes (modes x) m x)) w.

Definition hook (a : nat) (m key : string) (c : command) (w : World)
  : result World :=
  with_area a (fun x => Ok (set_hooks (hooks x ++ [(m, key, c)])%list
                                      (on_destroy x) x)) w.

Definition install (a : nat) (b : string * string * command) (w : World)
  : result World :=
  hook a (fst (fst b)) (snd (fst b)) (snd b) w.

(** [area.bind('<Destroy>', c)] *)
Definition bind_destroy (a : nat) (c : command) (w : World) : result World :=
  with_area a (fun x => Ok (set_hooks (hooks x)
                                      (on_destroy x ++ [c])%list x)) w.

(** [AreaVi.get_opened_files(root)]: the widgets under [root] by name. *)
Definition get_opened_files (w : World) : dict nat :=
  fold_left (fun d x => dict_setitem d (filename x) (wid x))
            (rev (note w)) [].

(** *** The networking framework

    The plugin drives an external event framework.  What it relies on is
    written out here: [send_cmd] hands one line to the connection,
    [send_msg] is [send_cmd] of a PRIVMSG line, [xmap] binds a handler to
    an event and [zmap] takes one binding away (one that is not there is
    an error).  The bindings of an event are kept, and later run, in the
    order they were made. *)

Definition untwisted_send_cmd (data : string) (w : World) : World :=
  emit (Dump data) w.

Definition untwisted_send_msg (target msg : string) (w : World)
  : result World :=
  d <- format "PRIVMSG %s :%s" [target; msg] ;;
  Ok (untwisted_send_cmd d w).

Definition xmap (ev : event) (h : handler) (w : World) : World :=
  set_base (base w ++ [(ev, h)])%list w.

Fixpoint remove_binding (ev : event) (h : handler)
    (b : list (event * handler)) : result (list (event * handler)) :=
  match b with
  | [] => Raise ValueError
  | (ev', h') :: r =>
      if event_eqb ev' ev && handler_eqb h' h then Ok r
      else r' <- remove_binding ev h r ;; Ok ((ev', h') :: r')
  end.

Definition zmap (ev : event) (h : handler) (w : World) : result World :=
  b <- remove_binding ev h (base w) ;; Ok (set_base b w).

Definition lose (w : World) : World := emit Lose w.

(** The text of the widget is kept as the bytes of its UTF-8 encoding, so
    that [data.encode('utf-8')] leaves the representation as it is. *)
Definition encode_utf8 (data : string) : string := data.

(** *** IrcMode *)

(** What the user supplies when a key command asks for it.  Modelled from
    the spec: [Ask(area).data] is the text typed into the prompt,
    [area.cmd_like()] the line composed in the widget, and
    [area.complete_word(area.master)] a single-use forward-only cursor
    over the candidate completions of the word at the text cursor. *)
Record Input : Type := {
  ask_data   : string;
  cmd_like   : string;
  candidates : list string
}.

(** [IrcMode.__init__] *)
Definition init (addr_ : string) (port_ : Z) (user_ nick_ irccmd_ : string)
    (channels_ : list string) (tabs : list AreaVi) (fresh : nat) : World :=
  let w := {| self := {| addr := addr_; port := port_; user := user_;
                         nick := nick_; irccmd := irccmd_;
                         channels := channels_; misc := None; seq := None |};
              note := tabs; next_wid := fresh; base := []; trace := [] |} in
  let w := xmap CONNECT set_up_con_h w in
  xmap CONNECT_ERR on_connect_err_h w.

Definition send_cmd (area : nat) (inp : Input) (w : World) : result World :=
  Ok (untwisted_send_cmd (ask_data inp) w).

Definition set_common_irc_handles (area : nat) (w : World) : World :=
  let w := set_self (set_misc (Some {| Misc_nick := EmptyString |})) w in
  let w := xmap (Ev "MEJOIN") (irc_l1 area) w in
  let w := xmap (Ev "PING") irc_l2 w in
  let w := xmap FOUND (irc_l3 area) w in
  xmap (Ev "PMSG") deliver_user_msg_h w.

Definition set_common_irc_commands (area : nat) (w : World) : result World :=
  w <- add_mode area "IRC" w ;;
  w <- chmode area "IRC" w ;;
  w <- hook area "GAMMA" "<Key-i>" chmode_IRC w ;;
  w <- hook area "IRC" "<Control-e>" send_cmd_c w ;;
  w <- hook area "IRC" "<Control-c>" start_user_chat_c w ;;
  w <- install area ("IRC", "<Control-q>", complete_nick_c) w ;;
  w <- install area ("IRC", "<Control_R>", reset_c) w ;;
  install area ("IRC", "<Control_L>", reset_c) w.

(** [Stdin(con)], [Stdout(con)], [Shrug(con)] and [Irc(con)] put the
    framework's reading, writing, line splitting and parsing on the
    connection and bind nothing of the session's.  What the parser makes
    of a line that was read (a [PING], a numeric, a [MEJOIN], ...) reaches
    this model as one more event given to [drive]. *)
Definition set_up_con (w : World) : result World :=
  let '(area, w) := note_create (addr (self w)) w in
  let w := xmap CLOSE close_h w in
  let w := set_common_irc_handles area w in
  w <- set_common_irc_commands area w ;;
  let w := xmap (Ev "376") irccmd_h w in
  let w := xmap (Ev "376") auto_join_h w in
  c <- format "NICK %s" [nick (self w)] ;;
  let w := untwisted_send_cmd c w in
  c <- format "USER %s" [user (self w)] ;;
  Ok (untwisted_send_cmd c w).

Definition create_area (name : string) (w : World) : result (nat * World) :=
  let '(area, w) := note_create name w in
  w <- insert area End_ (nl ++ nl) w ;;
  w <- mark_set area "CHDATA" (At 0) w ;;
  Ok (area, w).

Definition set_common_chan_commands (area : nat) (chan : string) (w : World)
  : result World :=
  hook area "IRC" "<Return>" (e1 chan) w.

(** The tuple [events] of [set_common_chan_handles]. *)
Definition events (area : nat) (chan : string)
  : result (list (event * handler)) :=
  k1 <- format "PRIVMSG->%s" [chan] ;;
  k2 <- format "332->%s" [chan] ;;
  k3 <- format "PART->%s" [chan] ;;
  k4 <- format "JOIN->%s" [chan] ;;
  k6 <- format "353->%s" [chan] ;;
  k8 <- format "KICK->%s" [chan] ;;
  Ok [(Ev k1, l1 area); (Ev k2, l2 area);
      (Ev k3, l3 area chan); (Ev k4, l4 area chan);
      (Ev "MENICK", l5 area); (Ev k6, l6 area); (Ev "QUIT", l7 area);
      (Ev k8, l8 area chan); (Ev "MODE", l9 area)].

Definition set_common_chan_handles (area : nat) (chan : string) (w : World)
  : result World :=
  evs <- events area chan ;;
  let w := fold_left (fun w kv => xmap (fst kv) (snd kv) w) evs w in
  k <- format "PART->%s->MEPART" [chan] ;;
  let w := xmap (Ev k) (unset area chan) w in
  k <- format "KICK->%s->ME" [chan] ;;
  Ok (xmap (Ev k) (unset area chan) w).

Fixpoint zmap_all (evs : list (event * handler)) (w : World) : result World :=
  match evs with
  | [] => Ok w
  | (key, value) :: r => w <- zmap key value w ;; zmap_all r w
  end.

(** The body of the closure [unset] of [set_common_chan_handles]. *)
Definition unset_body (area : nat) (chan : string) (w : World)
  : result World :=
  evs <- events area chan ;;
  w <- zmap_all evs w ;;
  k <- format "PART->%s->MEPART" [chan] ;;
  zmap (Ev k) (unset area chan) w.

Definition create_channel (area : nat) (chan : string) (w : World)
  : result World :=
  '(area_chan, w) <- create_area chan w ;;
  w <- set_common_irc_commands area_chan w ;;
  w <- set_common_chan_commands area_chan chan w ;;
  w <- set_common_chan_handles area_chan chan w ;;
  bind_destroy area_chan (part_c chan) w.

Definition create_user_chat (nick_ : string) (w : World)
  : result (nat * World) :=
  '(area_user, w) <- create_area nick_ w ;;
  w <- set_common_irc_commands area_user w ;;
  w <- set_common_chan_commands area_user nick_ w ;;
  Ok (area_user, w).

Definition start_user_chat (area : nat) (inp : Input) (w : World)
  : result World :=
  '(_, w) <- create_user_chat (ask_data inp) w ;; Ok w.

(** The subscript expression of [deliver_user_msg]. *)
Definition lookup_user (nick_ : string) (w : World) : result nat :=
  dict_getitem
    (dict_of_items (map (fun kv => (lower (fst kv), snd kv))
                        (iteritems (get_opened_files w))))
    (lower nick_).

Definition deliver_user_msg (nick_ user_ host target msg : string)
    (w : World) : result World :=
  let tried :=
    try_except (area_user <- lookup_user nick_ w ;; Ok (area_user, w))
               (exn_eqb KeyError)
               (create_user_chat nick_ w) in
  (* finally: *)
  match tried with
  | Ok (area_user, w) =>
      line <- format H1 [nick_; msg] ;;
      insee area_user (Mark "CHDATA") line w
  | Raise e => Raise e
  end.

Definition gen_next (w : World) : result World :=
  match seq (self w) with
  | None => Raise AttributeError
  | Some (area, []) => Raise StopIteration
  | Some (area, word :: rest) =>
      Ok (emit (Complete area word)
               (set_self (set_seq (Some (area, rest))) w))
  end.

Definition complete_nick (area : nat) (w : World) : result World :=
  try_except (gen_next w) (exn_eqb StopIteration) (Ok w).

Definition reset (area : nat) (inp : Input) (w : World) : result World :=
  Ok (set_self (set_seq (Some (area, candidates inp))) w).

Definition auto_join (w : World) : result World :=
  fold_left (fun r ind =>
               w <- r ;;
               c <- format "JOIN %s" [ind] ;;
               Ok (untwisted_send_cmd c w))
            (channels (self w)) (Ok w).

Definition send_msg (area : nat) (chan : string) (inp : Input) (w : World)
  : result (option string * World) :=
  let data := cmd_like inp in
  m <- match misc (self w) with
       | Some m => Ok m
       | None => Raise AttributeError
       end ;;
  line <- format H1 [Misc_nick m; data] ;;
  w <- insee area (Mark "CHDATA") line w ;;
  w <- untwisted_send_msg chan (encode_utf8 data) w ;;
  Ok (Some "break", w).

Definition on_connect_err (w : World) : result World :=
  Ok (emit (Print "not connected") w).

(** *** Dispatch *)

(** A handler called with the arguments of an event (the connection is
    left out); a call with the wrong number of arguments is a
    [TypeError]. *)
Definition run (h : handler) (args : list string) (w : World) : result World :=
  match h, args with
  | set_up_con_h, [] => set_up_con w
  | on_connect_err_h, [err] => on_connect_err w
  | close_h, [err] => Ok (lose w)
  | irccmd_h, _ => Ok (untwisted_send_cmd (irccmd (self w)) w)
  | auto_join_h, _ => auto_join w
  | irc_l1 area, [chan] => create_channel area chan w
  | irc_l2, [prefix; servaddr] =>
      c <- format "PONG :%s" [servaddr] ;; Ok (untwisted_send_cmd c w)
  | irc_l3 area, [data] =>
      line <- format ("%s" ++ nl) [data] ;; insee area End_ line w
  | deliver_user_msg_h, [nick_; user_; host; target; msg] =>
      deliver_user_msg nick_ user_ host target msg w
  | l1 area, [nick_; user_; host; msg] =>
      line <- format H1 [nick_; msg] ;; insee area (Mark "CHDATA") line w
  | l2 area, [addr_; nick_; msg] =>
      line <- format H2 [msg] ;; insee area (Mark "CHDATA") line w
  | l3 area chan, [nick_; user_; host] =>
      line <- format H3 [nick_; chan] ;; insee area (Mark "CHDATA") line w
  | l4 area chan, [nick_; user_; host] =>
      line <- format H4 [nick_; chan] ;; insee area (Mark "CHDATA") line w
  | l5 area, [nicka; user_; host; nickb] =>
      line <- format H5 [nicka; nickb] ;; insee area (Mark "CHDATA") line w
  | l6 area, [prefix; nick_; mode_; peers] =>
      line <- format H6 [peers] ;; insee area (Mark "CHDATA") line w
  | l7 area, [nick_; user_; host; msg] => Ok w
  | l8 area chan, [nick_; user_; host; target; msg] =>
      line <- format H8 [nick_; target; chan; msg] ;;
      insee area (Mark "CHDATA") line w
  | l9 area, [nick_; user_; host; chan; mode_] =>
      line <- format H9 [nick_; chan; mode_; EmptyString] ;;
      insee area (Mark "CHDATA") line w
  | l9 area, [nick_; user_; host; chan; mode_; target] =>
      line <- format H9 [nick_; chan; mode_; target] ;;
      insee area (Mark "CHDATA") line w
  | unset area chan, _ => unset_body area chan w
  | _, _ => Raise TypeError
  end.

Definition handlers_of (ev : event) (b : list (event * handler))
  : list handler :=
  map snd (filter (fun kv => event_eqb (fst kv) ev) b).

Fixpoint run_all (hs : list handler) (args : list string) (w : World)
  : result World :=
  match hs with
  | [] => Ok w
  | h :: r => w <- run h args w ;; run_all r args w
  end.

(** An event arrives on the connection: the handlers bound to it at that
    moment run in the order they were bound. *)
Definition drive (ev : event) (args : list string) (w : World)
  : result World :=
  run_all (handlers_of ev (base w)) args w.

(** A key callback called with its event; the result is what the callback
    returns. *)
Definition call (c : command) (area : nat) (inp : Input) (w : World)
  : result (option string * World) :=
  match c with
  | chmode_IRC => w <- chmode area "IRC" w ;; Ok (None, w)
  | send_cmd_c => w <- send_cmd area inp w ;; Ok (None, w)
  | start_user_chat_c => w <- start_user_chat area inp w ;; Ok (None, w)
  | complete_nick_c => w <- complete_nick area w ;; Ok (None, w)
  | reset_c => w <- reset area inp w ;; Ok (None, w)
  | e1 chan => send_msg area chan inp w
  | part_c chan =>
      c <- format "PART %s" [chan] ;; Ok (None, untwisted_send_cmd c w)
  end.

(** The callbacks run in turn; one that returns ['break'] consumes the
    event, and nothing after it sees the event. *)
Fixpoint call_all (cs : list command) (area : nat) (inp : Input) (w : World)
  : result (bool * World) :=
  match cs with
  | [] => Ok (false, w)
  | c :: r =>
      '(ret, w) <- call c area inp w ;;
      match ret with
      | Some _ => Ok (true, w)
      | None => call_all r area inp w
      end
  end.

Definition find_area (a : nat) (w : World) : option AreaVi :=
  find (fun x => Nat.eqb (wid x) a) (note w).

Definition bound (x : AreaVi) (key : string) : list command :=
  map snd (filter (fun b => String.eqb (fst (fst b)) (mode x)
                            && String.eqb (snd (fst b)) key) (hooks x)).

(** A key sequence arrives at a widget: the callbacks bound to it in the
    widget's current mode run; the flag tells whether it was consumed. *)
Definition press (area : nat) (key : string) (inp : Input) (w : World)
  : result (bool * World) :=
  match find_area area w with
  | None => Raise TclError
  | Some x => call_all (bound x key) area inp w
  end.

(** The tab of a widget is closed: its [<Destroy>] callbacks run, then the
    widget is gone. *)
Definition destroy (area : nat) (inp : Input) (w : World) : result World :=
  match find_area area w with
  | None => Raise TclError
  | Some x =>
      '(_, w) <- call_all (on_destroy x) area inp w ;;
      Ok (set_note (filter (fun y => negb (Nat.eqb (wid y) area)) (note w)) w)
  end.

(** What can happen to a session, one thing at a time. *)
Inductive action : Type :=
| Net (ev : event) (args : list string)
| Key (area : nat) (key : string) (inp : Input)
| Close_tab (area : nat)
| Nick_is (n : string).   (* the framework's [Misc] follows the server *)

Definition step (a : action) (w : World) : result World :=
  match a with
  | Net ev args => drive ev args w
  | Key area key inp => '(_, w) <- press area key inp w ;; Ok w
  | Close_tab area =>
      destroy area {| ask_data := EmptyString; cmd_like := EmptyString;
                      candidates := [] |} w
  | Nick_is n =>
      Ok (set_self (fun s => set_misc
                      (option_map (fun _ => {| Misc_nick := n |}) (misc s)) s)
                   w)
  end.

Fixpoint steps (l : list action) (w : World) : result World :=
  match l with
  | [] => Ok w
  | a :: r => w <- step a w ;; steps r w
  end.

(** The widgets that show a conversation with [name], whatever its case. *)
Definition sessions_of (name : string) (w : World) : list AreaVi :=
  filter (fun x => String.eqb (lower (filename x)) (lower name)) (note w).

(** *** Auxiliary definitions for the properties *)

(** The key bindings [set_common_irc_commands] adds to a widget. *)
Definition irc_hooks : list (string * string * command) :=
  [("GAMMA", "<Key-i>", chmode_IRC);
   ("IRC", "<Control-e>", send_cmd_c);
   ("IRC", "<Control-c>", start_user_chat_c);
   ("IRC", "<Control-q>", complete_nick_c);
   ("IRC", "<Control_R>", reset_c);
   ("IRC", "<Control_L>", reset_c)].

(** The widget [create_area] leaves behind. *)
Definition fresh_area (a : nat) (name : string) : AreaVi :=
  {| wid := a; filename := name; text := nl ++ nl; marks := [("CHDATA", 0)];
     modes := []; mode := "NORMAL"; hooks := []; on_destroy := [] |}.

(** The widget [create_user_chat] leaves behind. *)
Definition chat_area (a : nat) (name : string) : AreaVi :=
  {| wid := a; filename := name; text := nl ++ nl; marks := [("CHDATA", 0)];
     modes := ["IRC"]; mode := "IRC";
     hooks := (irc_hooks ++ [("IRC", "<Return>", e1 name)])%list;
     on_destroy := [] |}.


(** The session of the examples: connected, one channel joined;
    the network tab is widget 0 and the channel tab widget 1. *)
Definition example_session : result World :=
  steps [Net CONNECT []; Net (Ev "MEJOIN") ["#vy"]]
        (init "irc.example.org" 6667 "vy vy vy :vyirc" "vyirc"
              "PRIVMSG nickserv :identify x" ["#vy"] [] 0).

(** Whether a handler is one of those made for the channel tab [area]. *)
Definition of_area (area : nat) (h : handler) : bool :=
  match h with
  | l1 a | l2 a | l5 a | l6 a | l7 a | l9 a => Nat.eqb a area
  | l3 a _ | l4 a _ | l8 a _ | unset a _ => Nat.eqb a area
  | _ => false
  end.

(** The bindings of the connection that belong to the channel tab
    [area]. *)
Definition live_bindings (area : nat) (w : World) : list (event * handler) :=
  filter (fun kv => of_area area (snd kv)) (base w).

(** The tab [set_up_con] leaves behind. *)
Definition network_area (a : nat) (name : string) : AreaVi :=
  {| wid := a; filename := name; text := EmptyString; marks := [];
     modes := ["IRC"]; mode := "IRC"; hooks := irc_hooks; on_destroy := [] |}.

(** The bindings [set_up_con] adds to the connection. *)
Definition session_bindings (a : nat) : list (event * handler) :=
  [(CLOSE, close_h); (Ev "MEJOIN", irc_l1 a); (Ev "PING", irc_l2);
   (FOUND, irc_l3 a); (Ev "PMSG", deliver_user_msg_h);
   (Ev "376", irccmd_h); (Ev "376", auto_join_h)].

(** The world after [set_up_con]. *)
Definition connected (w : World) : World :=
  {| self := set_misc (Some {| Misc_nick := EmptyString |}) (self w);
     note := network_area (next_wid w) (addr (self w)) :: note w;
     next_wid := S (next_wid w);
     base := (base w ++ session_bindings (next_wid w))%list;
     trace := (trace w ++ [Create (next_wid w) (addr (self w));
                           Dump ("NICK " ++ nick (self w));
                           Dump ("USER " ++ user (self w))])%list |}.

(** The tab [create_channel] leaves behind. *)
Definition channel_area (a : nat) (chan : string) : AreaVi :=
  {| wid := a; filename := chan; text := nl ++ nl; marks := [("CHDATA", 0)];
     modes := ["IRC"]; mode := "IRC";
     hooks := (irc_hooks ++ [("IRC", "<Return>", e1 chan)])%list;
     on_destroy := [part_c chan] |}.

(** The bindings [set_common_chan_handles] adds to the connection. *)
Definition channel_bindings (a : nat) (chan : string)
  : list (event * handler) :=
  [(Ev ("PRIVMSG->" ++ chan), l1 a); (Ev ("332->" ++ chan), l2 a);
   (Ev ("PART->" ++ chan), l3 a chan); (Ev ("JOIN->" ++ chan), l4 a chan);
   (Ev "MENICK", l5 a); (Ev ("353->" ++ chan), l6 a); (Ev "QUIT", l7 a);
   (Ev ("KICK->" ++ chan), l8 a chan); (Ev "MODE", l9 a);
   (Ev ("PART->" ++ chan ++ "->MEPART"), unset a chan);
   (Ev ("KICK->" ++ chan ++ "->ME"), unset a chan)].

(** The world after [create_channel]. *)
Definition joined (chan : string) (w : World) : World :=
  {| self := self w;
     note := channel_area (next_wid w) chan :: note w;
     next_wid := S (next_wid w);
     base := (base w ++ channel_bindings (next_wid w) chan)%list;
     trace := (trace w ++ [Create (next_wid w) chan;
                           Insert (next_wid w) End_ (nl ++ nl)])%list |}.

(** The text of a widget replaced. *)
Definition with_text (t : string) (ms : list (string * nat)) (x : AreaVi)
  : AreaVi :=
  {| wid := wid x; filename := filename x; text := t; marks := ms;
     modes := modes x; mode := mode x; hooks := hooks x;
     on_destroy := on_destroy x |}.

(** A widget in which Enter sends to [name]: it is in the mode of the
    session, the one callback of [<Return>] in that mode is the sending
    to [name], and it has the [CHDATA] mark. *)
Definition tab_ok (name : string) (x : AreaVi) : Prop :=
  mode x = "IRC"
  /\ bound x "<Return>" = [e1 name]
  /\ exists p, dict_get (marks x) "CHDATA" = Some p.

(** The widget [tab] is open and is such a widget. *)
Definition session_tab (tab : nat) (name : string) (w : World) : Prop :=
  exists x, find_area tab w = Some x /\ tab_ok name x.

(** From [w] to [w'] no widget number is given back, the nick tracker
    stays in place, and the tab [tab], once made, stays a session tab. *)
Definition keeps (tab : nat) (name : string) (w w' : World) : Prop :=
  next_wid w <= next_wid w'
  /\ (misc (self w) <> None -> misc (self w') <> None)
  /\ (tab < next_wid w -> session_tab tab name w -> session_tab tab name w').

(** Taking apart a sequence of calls that returned. *)
Ltac binds :=
  repeat match goal with
         | H : bind ?c _ = Ok _ |- _ =>
             let a := fresh "w" in
             let E := fresh "E" in
             destruct c as [a|] eqn:E; cbn [bind] in H; [|discriminate H]
         | H : Ok _ = Ok _ |- _ => injection H as H
         | H : (_, _) = (_, _) |- _ => injection H as ? ?
         end.

End Vyirc.

(** * Properties *)

(** ** caps.py *)

Module CapsSpec.
Import Py Caps.

Lemma range_empty_tuple : range 0 (Z.of_nat (@List.length nat []) - 1) 2 = [].
Proof. reflexivity. Qed.

(** With a selection in the active widget and none in the argument, the
    argument's text is still converted: the ranges are the active
    widget's. *)
Example lower_reads_ACTIVE :
  lower {| text := "xyz"; sel := [0; 2] |} {| text := "ABC"; sel := [] |}
  = Ok ({| text := "abC"; sel := [] |},
        [{| swap_data := "ab"; swap_from := 0; swap_to := 2 |}]).
Proof. reflexivity. Qed.

Example upper_reads_ACTIVE :
  upper {| text := "xyz"; sel := [1; 3] |} {| text := "abc"; sel := [] |}
  = Ok ({| text := "aBC"; sel := [] |},
        [{| swap_data := "BC"; swap_from := 1; swap_to := 3 |}]).
Proof. reflexivity. Qed.

(** C10.  When the globally active widget has an empty selection,
    [lower] and [upper] return normally, call [swap] zero times and leave
    the widget they are applied to exactly as it was, whatever that
    widget's own text and selection are: the ranges are those of
    [AreaVi.ACTIVE], not of the argument. *)
Theorem caps_empty_selection_no_swap (ACTIVE area : AreaVi)
    (Hsel : tag_ranges ACTIVE = []) :
  lower ACTIVE area = Ok (area, []) /\ upper ACTIVE area = Ok (area, []).
Proof.
  unfold lower, upper, transform.
  rewrite Hsel, range_empty_tuple.
  split; reflexivity.
Qed.

Lemma caps_empty_selection_no_swap_witness :
  let ACTIVE := {| text := "Hello"; sel := [] |} in
  let area := {| text := "Some TEXT"; sel := [0; 4] |} in
  tag_ranges ACTIVE = []
  /\ lower ACTIVE area = Ok (area, []) /\ upper ACTIVE area = Ok (area, []).
Proof.
  split; [reflexivity|].
  apply (caps_empty_selection_no_swap
           {| text := "Hello"; sel := [] |}
           {| text := "Some TEXT"; sel := [0; 4] |}).
  reflexivity.
Defined.

End CapsSpec.

(** ** vyirc.py *)

Module VyircSpec.
Import Py Vyirc.

(** *** Strings and formats *)

Lemma append_empty (s : string) : s ++ EmptyString = s.
Proof. induction s as [|c s IH]; cbn; [reflexivity | now rewrite IH]. Qed.

Lemma format_NICK (n : string) : format "NICK %s" [n] = Ok ("NICK " ++ n).
Proof. cbn. now rewrite append_empty. Qed.

Lemma format_USER (u : string) : format "USER %s" [u] = Ok ("USER " ++ u).
Proof. cbn. now rewrite append_empty. Qed.

Lemma format_JOIN (c : string) : format "JOIN %s" [c] = Ok ("JOIN " ++ c).
Proof. cbn. now rewrite append_empty. Qed.

Lemma format_PART (c : string) : format "PART %s" [c] = Ok ("PART " ++ c).
Proof. cbn. now rewrite append_empty. Qed.

Lemma format_PRIVMSG (t m : string) :
  format "PRIVMSG %s :%s" [t; m] = Ok ("PRIVMSG " ++ t ++ " :" ++ m).
Proof. cbn. now rewrite append_empty. Qed.

Lemma format_H1 (n m : string) :
  format H1 [n; m] = Ok ("<" ++ n ++ "> " ++ m ++ nl).
Proof. reflexivity. Qed.

(** *** The trace *)

Lemma sent_Dumps (f : string -> string) (l : list string) :
  flat_map (fun e => match e with Dump d => [d] | _ => [] end)
           (map (fun c => Dump (f c)) l)
  = map f l.
Proof. induction l as [|c l IH]; cbn; [reflexivity | now rewrite IH]. Qed.

(** *** Operations on the newest widget *)

Lemma with_area_head (a : nat) (f : AreaVi -> result AreaVi) (w : World)
    (x : AreaVi) (r : list AreaVi) :
  note w = x :: r -> wid x = a ->
  with_area a f w = (y <- f x ;; Ok (set_note (y :: r) w)).
Proof.
  intros Hn Hw. unfold with_area. rewrite Hn. cbn.
  rewrite Hw, Nat.eqb_refl.
  destruct (f x); reflexivity.
Qed.

Lemma set_common_irc_commands_head (a : nat) (w : World) (x : AreaVi)
    (r : list AreaVi) :
  note w = x :: r -> wid x = a ->
  set_common_irc_commands a w
  = Ok (set_note
          (set_hooks (hooks x ++ irc_hooks)%list (on_destroy x)
             (set_modes (modes x ++ ["IRC"])%list "IRC" x) :: r) w).
Proof.
  intros Hn Hw.
  destruct x as [xa xf xt xm xms xmo xh xd]; cbn [wid] in Hw; subst xa.
  unfold set_common_irc_commands, install, hook, add_mode, chmode.
  rewrite (with_area_head a _ w _ r Hn eq_refl).
  cbn [bind set_hooks set_modes wid filename text marks modes mode hooks
       on_destroy fst snd].
  do 7 (erewrite with_area_head; [|reflexivity|reflexivity];
        cbn [bind set_hooks set_modes wid filename text marks modes mode
             hooks on_destroy fst snd]).
  unfold set_note. cbn [self note next_wid base trace].
  unfold irc_hooks. rewrite <- !app_assoc. reflexivity.
Qed.

Lemma auto_join_fold (cs : list string) (w : World) :
  fold_left (fun r ind =>
               w <- r ;;
               c <- format "JOIN %s" [ind] ;;
               Ok (untwisted_send_cmd c w)) cs (Ok w)
  = Ok {| self := self w; note := note w; next_wid := next_wid w;
          base := base w;
          trace := (trace w ++ map (fun c => Dump ("JOIN " ++ c)) cs)%list |}.
Proof.
  revert w. induction cs as [|c cs IH]; intros w.
  - cbn. rewrite app_nil_r. now destruct w.
  - cbn [fold_left]. cbn [bind]. rewrite format_JOIN. cbn [bind].
    rewrite IH. cbn. now rewrite <- app_assoc.
Qed.

Lemma set_up_con_spec (w : World) :
  exists w',
    set_up_con w = Ok w'
    /\ self w' = set_misc (Some {| Misc_nick := EmptyString |}) (self w)
    /\ trace w' = (trace w ++ [Create (next_wid w) (addr (self w));
                               Dump ("NICK " ++ nick (self w));
                               Dump ("USER " ++ user (self w))])%list
    /\ base w' = (base w ++ [(CLOSE, close_h);
                             (Ev "MEJOIN", irc_l1 (next_wid w));
                             (Ev "PING", irc_l2);
                             (FOUND, irc_l3 (next_wid w));
                             (Ev "PMSG", deliver_user_msg_h);
                             (Ev "376", irccmd_h);
                             (Ev "376", auto_join_h)])%list.
Proof.
  unfold set_up_con, note_create.
  erewrite set_common_irc_commands_head; [|reflexivity|reflexivity].
  cbn [bind]. rewrite format_NICK. cbn [bind]. rewrite format_USER.
  eexists; split; [reflexivity|].
  destruct w as [s n nw b t]; cbn.
  rewrite <- !app_assoc. cbn.
  repeat split; reflexivity.
Qed.

(** C1.  A session is created and its connection comes up: [NICK
    <nickname>] and [USER <user string>] are sent, in that order, and
    nothing else.  When the end-of-MOTD event (numeric 376) arrives after
    that, with whatever arguments, the lines sent next are the post-login
    command as it was configured, then one [JOIN] per channel of the
    initial list, in list order. *)
Theorem login_then_autojoin (addr_ : string) (port_ : Z)
    (user_ nick_ irccmd_ : string) (channels_ : list string)
    (tabs : list AreaVi) (fresh : nat) (args : list string) :
  exists w1 w2,
    drive CONNECT [] (init addr_ port_ user_ nick_ irccmd_ channels_ tabs fresh)
    = Ok w1
    /\ sent w1 = [("NICK " ++ nick_)%string; ("USER " ++ user_)%string]
    /\ drive (Ev "376") args w1 = Ok w2
    /\ sent w2 = ([("NICK " ++ nick_)%string; ("USER " ++ user_)%string;
                   irccmd_]
                  ++ map (fun c => ("JOIN " ++ c)%string) channels_)%list.
Proof.
  set (w := init addr_ port_ user_ nick_ irccmd_ channels_ tabs fresh).
  destruct (set_up_con_spec w) as (w1 & Hrun & Hself & Htrace & Hbase).
  exists w1.
  assert (Hd : drive CONNECT [] w = Ok w1).
  { change (drive CONNECT [] w) with (w' <- set_up_con w ;; Ok w').
    rewrite Hrun. reflexivity. }
  assert (Hs1 : sent w1 = [("NICK " ++ nick_)%string; ("USER " ++ user_)%string]).
  { unfold sent. rewrite Htrace. reflexivity. }
  unfold drive at 2. rewrite Hbase. cbn [w init xmap set_base base app handlers_of
    filter map fst snd event_eqb String.eqb Ascii.eqb Bool.eqb run_all run bind].
  unfold auto_join. rewrite auto_join_fold. cbn [bind].
  eexists; repeat split; try eassumption; try reflexivity.
  unfold sent; cbn [trace untwisted_send_cmd emit self].
  rewrite !flat_map_app, sent_Dumps. fold (sent w1).
  rewrite Hs1, Hself. reflexivity.
Qed.

(** *** Dictionaries *)

Section DictFacts.
Context {V : Type}.
Implicit Types (d : dict V) (k : string) (v : V).

Lemma dict_get_setitem d k v k' :
  dict_get (dict_setitem d k v) k'
  = if String.eqb k k' then Some v else dict_get d k'.
Proof.
  induction d as [|[k1 v1] d IH]; cbn; [reflexivity|].
  destruct (String.eqb_spec k1 k) as [->|Hne]; cbn.
  - destruct (String.eqb k k'); reflexivity.
  - rewrite IH.
    destruct (String.eqb_spec k1 k') as [->|Hne'];
      destruct (String.eqb_spec k k') as [->|Hne'']; congruence.
Qed.

Lemma dict_get_In d k v : dict_get d k = Some v -> In (k, v) d.
Proof.
  induction d as [|[k1 v1] d IH]; cbn; [discriminate|].
  destruct (String.eqb_spec k1 k) as [->|Hne]; intros H.
  - injection H as ->. now left.
  - right. now apply IH.
Qed.

(** The items of a dictionary built by assignments come from the
    assignments, and every assigned key is present. *)
Lemma In_setitem d k v k' v' :
  In (k', v') (dict_setitem d k v) -> (k', v') = (k, v) \/ In (k', v') d.
Proof.
  induction d as [|[k1 v1] d IH]; cbn.
  - intros [H|[]]. left. congruence.
  - destruct (String.eqb_spec k1 k) as [->|Hne]; cbn.
    + intros [H|H]; [left; congruence | right; now right].
    + intros [H|H]; [right; now left|].
      destruct (IH H) as [?|?]; [now left | right; now right].
Qed.

Lemma In_fold_setitem {X} (key : X -> string) (val : X -> V)
    (l : list X) d k v :
  In (k, v) (fold_left (fun d x => dict_setitem d (key x) (val x)) l d) ->
  (exists x, In x l /\ key x = k /\ val x = v) \/ In (k, v) d.
Proof.
  revert d. induction l as [|x l IH]; cbn; intros d H; [now right|].
  destruct (IH _ H) as [(y & Hy & Hk & Hv)|H'].
  - left. exists y. auto.
  - destruct (In_setitem _ _ _ _ _ H') as [E|E]; [|now right].
    left. exists x. injection E as -> ->. auto.
Qed.

Lemma fold_setitem_present {X} (key : X -> string) (val : X -> V)
    (l : list X) d k :
  (exists x, In x l /\ key x = k) \/ (exists v, dict_get d k = Some v) ->
  exists v,
    dict_get (fold_left (fun d x => dict_setitem d (key x) (val x)) l d) k
    = Some v.
Proof.
  revert d. induction l as [|x l IH]; cbn; intros d H.
  - destruct H as [(x & [] & _)|H]; exact H.
  - apply IH. destruct H as [(y & [->|Hy] & Hk)|(v & Hv)].
    + right. rewrite dict_get_setitem, Hk, String.eqb_refl. eauto.
    + left. eauto.
    + right. rewrite dict_get_setitem.
      destruct (String.eqb (key x) k); eauto.
Qed.
End DictFacts.

(** The widget a name is looked up to is an open widget whose name is
    the looked-up name up to case. *)
Lemma lookup_user_Ok (n : string) (w : World) (a : nat) :
  lookup_user n w = Ok a ->
  exists x, In x (note w) /\ wid x = a /\ lower (filename x) = lower n.
Proof.
  unfold lookup_user, dict_getitem, dict_of_items, iteritems.
  destruct (dict_get _ _) as [v|] eqn:E; [|discriminate].
  intros H; injection H as ->.
  apply dict_get_In in E.
  apply (In_fold_setitem (fun kv => fst kv) (fun kv => snd kv)) in E.
  destruct E as [(kv & Hin & Hk & Hv)|[]].
  apply in_map_iff in Hin. destruct Hin as ((k0 & a0) & <- & Hin).
  cbn in Hk, Hv. subst a0.
  unfold get_opened_files in Hin.
  apply (In_fold_setitem filename wid) in Hin.
  destruct Hin as [(x & Hx & Hf & Hw)|[]].
  exists x. rewrite <- in_rev in Hx. subst k0. auto.
Qed.

Lemma lookup_user_present (n : string) (w : World) (x : AreaVi) :
  In x (note w) -> lower (filename x) = lower n ->
  exists a, lookup_user n w = Ok a.
Proof.
  intros Hx Hl.
  assert (H1 : exists a, In (filename x, a) (get_opened_files w)).
  { destruct (fold_setitem_present filename wid (rev (note w)) []
                (filename x)) as (a & Ha).
    - left. exists x. rewrite <- in_rev. auto.
    - exists a. now apply dict_get_In. }
  destruct H1 as (a & Ha).
  unfold lookup_user, dict_getitem, dict_of_items, iteritems.
  destruct (fold_setitem_present (V := nat) (fun kv => fst kv)
              (fun kv => snd kv)
              (map (fun kv => (lower (fst kv), snd kv)) (get_opened_files w))
              [] (lower n)) as (v & Hv).
  - left. exists (lower (filename x), a). split; [|now cbn].
    apply in_map_iff. exists (filename x, a). auto.
  - rewrite Hv. eauto.
Qed.

Lemma lookup_user_miss (n : string) (w : World) :
  sessions_of n w = [] -> lookup_user n w = Raise KeyError.
Proof.
  intros Hs.
  destruct (lookup_user n w) as [a|e] eqn:E.
  - apply lookup_user_Ok in E. destruct E as (x & Hx & _ & Hl).
    assert (Hin : In x (sessions_of n w)).
    { unfold sessions_of. apply filter_In. split; [exact Hx|].
      now apply String.eqb_eq. }
    rewrite Hs in Hin. contradiction.
  - unfold lookup_user, dict_getitem in E.
    destruct (dict_get _ _); [discriminate | now symmetry].
Qed.

(** C4.  With a query session for [N] open, delivering under any case
    variant [v] of [N] finds an open widget named [N] up to case, and it
    is the one found under [N] itself. *)
Theorem lookup_any_case_same_session (w : World) (N v : string) (x : AreaVi)
    (Hopen : In x (note w)) (Hname : filename x = N)
    (Hvariant : lower v = lower N) :
  exists y,
    In y (note w) /\ lower (filename y) = lower N
    /\ lookup_user v w = Ok (wid y)
    /\ lookup_user N w = Ok (wid y)
    /\ (sessions_of N w = [x] -> y = x).
Proof.
  destruct (lookup_user_present N w x Hopen) as (a & Ha).
  { now rewrite Hname. }
  destruct (lookup_user_Ok _ _ _ Ha) as (y & Hy & Hw & Hl).
  exists y. subst a. repeat split; try assumption.
  - unfold lookup_user in *. now rewrite Hvariant.
  - intros Hone.
    assert (Hin : In y (sessions_of N w)).
    { unfold sessions_of. apply filter_In. split; [exact Hy|].
      now apply String.eqb_eq. }
    rewrite Hone in Hin. destruct Hin as [E|[]]. now symmetry.
Qed.

(** *** Creating sessions *)

Lemma create_area_spec (name : string) (w : World) :
  create_area name w
  = Ok (next_wid w,
        {| self := self w;
           note := fresh_area (next_wid w) name :: note w;
           next_wid := S (next_wid w);
           base := base w;
           trace := (trace w ++ [Create (next_wid w) name;
                                 Insert (next_wid w) End_ (nl ++ nl)])%list |}).
Proof.
  destruct w as [s n nw b t].
  unfold create_area, note_create, insert, mark_set, with_area.
  cbn. repeat (rewrite Nat.eqb_refl; cbn).
  unfold fresh_area, set_note, emit; cbn.
  rewrite <- app_assoc. reflexivity.
Qed.

Lemma create_user_chat_spec (name : string) (w : World) :
  create_user_chat name w
  = Ok (next_wid w,
        {| self := self w;
           note := chat_area (next_wid w) name :: note w;
           next_wid := S (next_wid w);
           base := base w;
           trace := (trace w ++ [Create (next_wid w) name;
                                 Insert (next_wid w) End_ (nl ++ nl)])%list |}).
Proof.
  unfold create_user_chat. rewrite create_area_spec. cbn [bind].
  erewrite set_common_irc_commands_head; [|reflexivity|reflexivity].
  cbn [bind]. unfold set_common_chan_commands, hook.
  erewrite with_area_head; [|reflexivity|reflexivity].
  reflexivity.
Qed.

(** C5.  A private message arrives from a nick for which no widget is
    open: [deliver_user_msg] returns normally; what it did, in order, is
    open one tab named after the nick, prepare it, and only then write
    the formatted message at the [CHDATA] mark of that new tab.  The new
    tab is the one widget added. *)
Theorem deliver_miss_creates_then_appends
    (nick_ user_ host target msg : string) (w : World)
    (Hmiss : sessions_of nick_ w = []) :
  exists w',
    deliver_user_msg nick_ user_ host target msg w = Ok w'
    /\ trace w'
       = (trace w
          ++ [Create (next_wid w) nick_;
              Insert (next_wid w) End_ (nl ++ nl);
              Insert (next_wid w) (Mark "CHDATA")
                     ("<" ++ nick_ ++ "> " ++ msg ++ nl)])%list
    /\ (exists x,
          note w' = x :: note w
          /\ wid x = next_wid w /\ filename x = nick_
          /\ text x = ("<" ++ nick_ ++ "> " ++ msg ++ nl) ++ nl ++ nl)
    /\ List.length (sessions_of nick_ w') = 1.
Proof.
  unfold deliver_user_msg.
  rewrite (lookup_user_miss _ _ Hmiss). cbn [bind try_except exn_eqb].
  rewrite create_user_chat_spec, format_H1. cbn [bind].
  unfold insee, insert.
  erewrite with_area_head; [|reflexivity|reflexivity].
  cbn -[append nl].
  eexists. split; [reflexivity|].
  cbn -[append nl]. split; [|split].
  - rewrite <- app_assoc. reflexivity.
  - eexists. split; [reflexivity|]. cbn -[append nl].
    repeat split.
  - unfold sessions_of in *. cbn -[append nl lower].
    rewrite String.eqb_refl, Hmiss. reflexivity.
Qed.

Lemma deliver_miss_creates_then_appends_witness :
  let w := init "irc.example.org" 6667 "vy vy vy :vyirc" "vyirc"
                "PRIVMSG nickserv :identify x" ["#test"] [] 0 in
  sessions_of "Bob" w = []
  /\ exists w',
       deliver_user_msg "Bob" "bob" "example.org" "vyirc" "hi" w = Ok w'
       /\ List.length (sessions_of "Bob" w') = 1.
Proof.
  split; [reflexivity|].
  destruct (deliver_miss_creates_then_appends
              "Bob" "bob" "example.org" "vyirc" "hi"
              (init "irc.example.org" 6667 "vy vy vy :vyirc" "vyirc"
                    "PRIVMSG nickserv :identify x" ["#test"] [] 0)
              eq_refl) as (w' & Hrun & _ & _ & Hone).
  exists w'. split; assumption.
Defined.

Lemma lookup_any_case_same_session_witness :
  let w := {| self := {| addr := "irc.example.org"; port := 6667;
                         user := "vy vy vy :vyirc"; nick := "vyirc";
                         irccmd := "PRIVMSG nickserv :identify x";
                         channels := []; misc := None; seq := None |};
              note := [chat_area 1 "Bob"; fresh_area 0 "#vy"];
              next_wid := 2; base := []; trace := [] |} in
  lookup_user "BOB" w = Ok 1 /\ lookup_user "bOb" w = lookup_user "Bob" w.
Proof.
  intros w.
  destruct (lookup_any_case_same_session w "Bob" "BOB" (chat_area 1 "Bob"))
    as (y & _ & _ & Hv & _ & Hone); [now left | reflexivity | reflexivity |].
  rewrite (Hone eq_refl) in Hv.
  split; [exact Hv | reflexivity].
Defined.

(** *** Sending a composed message *)

Lemma update_found (a : nat) (f : AreaVi -> result AreaVi) (l : list AreaVi)
    (x y : AreaVi) :
  find (fun z => Nat.eqb (wid z) a) l = Some x -> f x = Ok y ->
  exists l', update a f l = Ok l'.
Proof.
  intros Hfind Hf. induction l as [|z l IH]; cbn in *; [discriminate|].
  destruct (Nat.eqb (wid z) a).
  - injection Hfind as ->. rewrite Hf. cbn. eauto.
  - destruct (IH Hfind) as (l' & ->). cbn. eauto.
Qed.

(** *** What leaves the session object alone *)

Lemma with_area_self (a : nat) (f : AreaVi -> result AreaVi) (w w' : World) :
  with_area a f w = Ok w' -> self w' = self w.
Proof. unfold with_area. intros H. binds. now subst. Qed.

Lemma insert_self (a : nat) (i : index) (d : string) (w w' : World) :
  insert a i d w = Ok w' -> self w' = self w.
Proof.
  unfold insert. intros H. binds. subst.
  match goal with E : with_area _ _ _ = Ok _ |- _ =>
    apply with_area_self in E; exact E end.
Qed.

Lemma zmap_self (ev : event) (h : handler) (w w' : World) :
  zmap ev h w = Ok w' -> self w' = self w.
Proof. unfold zmap. intros H. binds. now subst. Qed.

Lemma zmap_all_self (evs : list (event * handler)) (w w' : World) :
  zmap_all evs w = Ok w' -> self w' = self w.
Proof.
  revert w. induction evs as [|[k v] evs IH]; cbn; intros w H.
  - now injection H as ->.
  - binds. match goal with E : zmap _ _ _ = Ok _ |- _ =>
      apply zmap_self in E; rewrite <- E end.
    now apply IH.
Qed.

Lemma set_common_irc_commands_self (a : nat) (w w' : World) :
  set_common_irc_commands a w = Ok w' -> self w' = self w.
Proof.
  unfold set_common_irc_commands, install, hook, add_mode, chmode.
  intros H. binds.
  repeat match goal with E : with_area _ _ _ = Ok _ |- _ =>
    apply with_area_self in E end.
  congruence.
Qed.

Lemma unset_body_self (a : nat) (chan : string) (w w' : World) :
  unset_body a chan w = Ok w' -> self w' = self w.
Proof.
  unfold unset_body. intros H. binds.
  match goal with E : zmap_all _ _ = Ok _ |- _ => apply zmap_all_self in E end.
  match goal with E : zmap _ _ _ = Ok _ |- _ => apply zmap_self in E end.
  congruence.
Qed.

Lemma fold_xmap_self (evs : list (event * handler)) (w : World) :
  self (fold_left (fun w kv => xmap (fst kv) (snd kv) w) evs w) = self w.
Proof.
  revert w. induction evs as [|kv evs IH]; intros w; cbn; [reflexivity|].
  now rewrite IH.
Qed.

Lemma set_common_chan_handles_self (a : nat) (chan : string) (w w' : World) :
  set_common_chan_handles a chan w = Ok w' -> self w' = self w.
Proof.
  unfold set_common_chan_handles. intros H. binds. subst.
  cbn [self xmap set_base]. apply fold_xmap_self.
Qed.

Lemma fold_xmap_eq (evs : list (event * handler)) (w : World) :
  fold_left (fun w kv => xmap (fst kv) (snd kv) w) evs w
  = set_base (base w ++ evs)%list w.
Proof.
  revert w. induction evs as [|[k v] evs IH]; intros w.
  - cbn. rewrite app_nil_r. now destruct w.
  - cbn [fold_left fst snd]. rewrite IH. unfold xmap, set_base.
    cbn [self note next_wid base trace]. now rewrite <- app_assoc.
Qed.

Lemma events_eq (a : nat) (chan : string) :
  events a chan = Ok (firstn 9 (channel_bindings a chan)).
Proof. unfold events. cbn. rewrite !append_empty. reflexivity. Qed.

Lemma set_common_chan_handles_eq (a : nat) (chan : string) (w : World) :
  set_common_chan_handles a chan w
  = Ok (set_base (base w ++ channel_bindings a chan)%list w).
Proof.
  unfold set_common_chan_handles. rewrite events_eq. cbn [bind].
  rewrite fold_xmap_eq.
  change (format "PART->%s->MEPART" [chan])
    with (Ok ("PART->" ++ chan ++ "->MEPART")).
  change (format "KICK->%s->ME" [chan]) with (Ok ("KICK->" ++ chan ++ "->ME")).
  cbn [bind]. unfold xmap, set_base. cbn [self note next_wid base trace].
  rewrite <- !app_assoc. reflexivity.
Qed.

Lemma create_channel_joined (a0 : nat) (chan : string) (w : World) :
  create_channel a0 chan w = Ok (joined chan w).
Proof.
  unfold create_channel. rewrite create_area_spec. cbn [bind].
  erewrite set_common_irc_commands_head; [|reflexivity|reflexivity].
  cbn [bind]. unfold set_common_chan_commands, hook.
  erewrite with_area_head; [|reflexivity|reflexivity].
  cbn [bind]. rewrite set_common_chan_handles_eq. cbn [bind].
  unfold bind_destroy.
  erewrite with_area_head; [|reflexivity|reflexivity].
  reflexivity.
Qed.

Lemma create_channel_self (a : nat) (chan : string) (w w' : World) :
  create_channel a chan w = Ok w' -> self w' = self w.
Proof.
  rewrite create_channel_joined. intros H. injection H as <-. reflexivity.
Qed.

Lemma deliver_user_msg_self (n u h t m : string) (w w' : World) :
  deliver_user_msg n u h t m w = Ok w' -> self w' = self w.
Proof.
  unfold deliver_user_msg.
  destruct (lookup_user n w) as [a|e]; cbn [bind try_except].
  - unfold insee. intros H. binds. eapply insert_self; eassumption.
  - destruct (exn_eqb KeyError e); [|discriminate].
    rewrite create_user_chat_spec. unfold insee. intros H. binds.
    match goal with E : insert _ _ _ _ = Ok _ |- _ =>
      apply insert_self in E; exact E end.
Qed.

Lemma auto_join_self (w w' : World) :
  auto_join w = Ok w' -> self w' = self w.
Proof.
  unfold auto_join. rewrite auto_join_fold. intros H.
  injection H as <-. reflexivity.
Qed.

(** No handler of the connection touches the completion cursor. *)
Lemma run_keeps_seq (h : handler) (args : list string) (w w' : World) :
  run h args w = Ok w' -> seq (self w') = seq (self w).
Proof.
  intros H.
  destruct h; cbn [run] in H;
    repeat match type of H with
           | context [match ?l with [] => _ | _ :: _ => _ end] =>
               destruct l; try discriminate H
           end;
    unfold insee, on_connect_err in H; binds; subst;
    try reflexivity;
    try (match goal with E : insert _ _ _ _ = Ok _ |- _ =>
           apply insert_self in E; now rewrite E end).
  - destruct (set_up_con_spec w) as (w1 & Hrun & Hself & _).
    rewrite Hrun in H. injection H as <-. now rewrite Hself.
  - apply auto_join_self in H. now rewrite H.
  - apply create_channel_self in H. now rewrite H.
  - apply deliver_user_msg_self in H. now rewrite H.
  - apply unset_body_self in H. now rewrite H.
Qed.

(** No key callback other than [reset] sets the completion cursor, and
    only [complete_nick] moves it. *)
Lemma call_keeps_seq (c : command) (area : nat) (inp : Input) (w w' : World)
    (r : option string) :
  c <> reset_c -> c <> complete_nick_c ->
  call c area inp w = Ok (r, w') -> seq (self w') = seq (self w).
Proof.
  intros Hr Hc H.
  destruct c; try congruence; cbn [call] in H.
  - unfold chmode in H. binds. subst.
    match goal with E : with_area _ _ _ = Ok _ |- _ =>
      apply with_area_self in E; now rewrite E end.
  - unfold send_cmd in H. binds. subst. reflexivity.
  - unfold start_user_chat in H. rewrite create_user_chat_spec in H.
    cbn in H. injection H as _ <-. reflexivity.
  - unfold send_msg, insee, untwisted_send_msg in H. binds. subst.
    match goal with E : insert _ _ _ _ = Ok _ |- _ =>
      apply insert_self in E; cbn; now rewrite E end.
  - binds. subst. reflexivity.
Qed.

(** *** The completion cursor *)





(** C9.  As long as the cursor attribute has not been set (the state
    [__init__] leaves, which no handler of the connection and no key
    callback other than reset changes), the completion key raises
    [AttributeError]: only [StopIteration] is caught.  After a reset a
    press returns normally. *)
Theorem complete_nick_before_reset (w : World)
    (Hunset : seq (self w) = None) :
  (forall area, complete_nick area w = Raise AttributeError)
  /\ (forall area inp, call complete_nick_c area inp w = Raise AttributeError)
  /\ (forall h args w', run h args w = Ok w' -> seq (self w') = None)
  /\ (forall c area inp r w',
         c <> reset_c -> call c area inp w = Ok (r, w') ->
         seq (self w') = None)
  /\ (forall area inp,
         exists w1 w2,
           reset area inp w = Ok w1 /\ complete_nick area w1 = Ok w2).
Proof.
  assert (Hc : forall area, complete_nick area w = Raise AttributeError).
  { intros area. unfold complete_nick, gen_next. rewrite Hunset. reflexivity. }
  split; [exact Hc|]. split; [|split; [|split]].
  - intros area inp. cbn [call]. rewrite Hc. reflexivity.
  - intros h args w' H. apply run_keeps_seq in H. congruence.
  - intros c area inp r w' Hr H.
    destruct c; try congruence;
      try (rewrite <- Hunset; eapply call_keeps_seq;
           [| |exact H]; discriminate).
    cbn [call] in H. rewrite Hc in H. discriminate.
  - intros area inp. unfold reset, complete_nick, gen_next. cbn.
    destruct (candidates inp); eexists; eexists; split; reflexivity.
Qed.

Lemma complete_nick_before_reset_witness :
  let w := init "irc.example.org" 6667 "vy vy vy :vyirc" "vyirc"
                "PRIVMSG nickserv :identify x" ["#vy"] [] 0 in
  seq (self w) = None /\ complete_nick 0 w = Raise AttributeError.
Proof.
  intros w. split; [reflexivity|].
  exact (proj1 (complete_nick_before_reset w eq_refl) 0).
Defined.

(** *** The lines written to a channel tab *)

(** C6, as the code has it.  Each handler of a channel tab writes, at
    the [CHDATA] mark, the line of its formatting string followed by a
    newline; the quit handler writes nothing; and a MODE event renders as
    [>>> nick sets mode chan mode on target <<<], the target being empty
    when the event carries none. *)
Theorem channel_lines (a : nat) (chan : string) (w : World)
    (n u h m t addr_ nb prefix md peers ch : string) :
  run (l1 a) [n; u; h; m] w
  = insee a (Mark "CHDATA") ("<" ++ n ++ "> " ++ m ++ nl) w
  /\ run (l2 a) [addr_; n; m] w
     = insee a (Mark "CHDATA") ("Topic :" ++ m ++ nl) w
  /\ run (l3 a chan) [n; u; h] w
     = insee a (Mark "CHDATA")
             (">>> " ++ n ++ " has left " ++ chan ++ " <<<" ++ nl) w
  /\ run (l4 a chan) [n; u; h] w
     = insee a (Mark "CHDATA")
             (">>> " ++ n ++ " has joined " ++ chan ++ " <<<" ++ nl) w
  /\ run (l5 a) [n; u; h; nb] w
     = insee a (Mark "CHDATA")
             (">>> " ++ n ++ " is now known as " ++ nb ++ " <<<" ++ nl) w
  /\ run (l6 a) [prefix; n; md; peers] w
     = insee a (Mark "CHDATA") ("Peers:" ++ peers ++ nl) w
  /\ run (l7 a) [n; u; h; m] w = Ok w
  /\ run (l8 a chan) [n; u; h; t; m] w
     = insee a (Mark "CHDATA")
             (">>> " ++ n ++ " has kicked " ++ t ++ " from " ++ chan
                     ++ " (" ++ m ++ ") <<<" ++ nl) w
  /\ run (l9 a) [n; u; h; ch; md; t] w
     = insee a (Mark "CHDATA")
             (">>> " ++ n ++ " sets mode " ++ ch ++ " " ++ md ++ " on " ++ t
                     ++ " <<<" ++ nl) w
  /\ run (l9 a) [n; u; h; ch; md] w
     = insee a (Mark "CHDATA")
             (">>> " ++ n ++ " sets mode " ++ ch ++ " " ++ md ++ " on "
                     ++ " <<<" ++ nl) w.
Proof. repeat split; reflexivity. Qed.

(** C6 as stated fails on MODE: the line written has the channel after
    [sets mode] and [on] before the target. *)
Lemma mode_line_has_channel_and_on :
  exists w w',
    example_session = Ok w
    /\ drive (Ev "MODE") ["nick"; "user"; "host"; "#vy"; "+o"; "target"] w
       = Ok w'
    /\ trace w'
       = (trace w
          ++ [Insert 1 (Mark "CHDATA")
                     (">>> nick sets mode #vy +o on target <<<" ++ nl)])%list
    /\ ">>> nick sets mode #vy +o on target <<<" ++ nl
       <> ">>> nick sets mode +o target <<<" ++ nl
    /\ ">>> nick sets mode #vy +o on target <<<" ++ nl
       <> ">>> nick sets mode +o target <<<".
Proof.
  eexists. eexists.
  split; [vm_compute; reflexivity|].
  split; [vm_compute; reflexivity|].
  split; [reflexivity|].
  split; discriminate.
Qed.

(** *** Leaving a channel *)

(** C2 against the code.  With the channel [#vy] joined (eleven bindings
    for its tab), each way out of the channel lets [unset] run once and
    leaves the binding of [unset] to [KICK->#vy->ME] in place: being
    kicked, a part of our own, and closing the tab, which sends [PART]
    and is answered by the part event. *)
Lemma unset_leaves_kick_binding :
  exists w,
    example_session = Ok w
    /\ List.length (live_bindings 1 w) = 11
    /\ (exists w',
           drive (Ev "KICK->#vy->ME") ["op"; "user"; "host"; "vyirc"; "bye"] w
           = Ok w'
           /\ live_bindings 1 w' = [(Ev "KICK->#vy->ME", unset 1 "#vy")])
    /\ (exists w',
           drive (Ev "PART->#vy->MEPART") ["vyirc"; "user"; "host"] w = Ok w'
           /\ live_bindings 1 w' = [(Ev "KICK->#vy->ME", unset 1 "#vy")])
    /\ (exists w',
           steps [Close_tab 1;
                  Net (Ev "PART->#vy->MEPART") ["vyirc"; "user"; "host"]] w
           = Ok w'
           /\ sent w' = ["NICK vyirc"; "USER vy vy vy :vyirc"; "PART #vy"]
           /\ live_bindings 1 w' = [(Ev "KICK->#vy->ME", unset 1 "#vy")]).
Proof.
  eexists. split; [vm_compute; reflexivity|].
  split; [reflexivity|].
  split; [|split];
    eexists; (split; [vm_compute; reflexivity|]); repeat split; reflexivity.
Qed.

(** *** One session per peer *)

(** C3 against the code.  Asking twice for a private chat with the same
    nick opens two tabs with that name: [start_user_chat] opens a tab
    without looking for an open one, and a message from the nick then
    goes to one of the two. *)
Lemma start_user_chat_twice_two_sessions :
  let ask := fun n => {| ask_data := n; cmd_like := EmptyString;
                         candidates := [] |} in
  exists w w',
    example_session = Ok w
    /\ sessions_of "bob" w = []
    /\ steps [Key 0 "<Control-c>" (ask "bob");
              Key 0 "<Control-c>" (ask "bob")] w = Ok w'
    /\ map wid (sessions_of "bob" w') = [3; 2]
    /\ map filename (sessions_of "bob" w') = ["bob"; "bob"]
    /\ lookup_user "bob" w' = Ok 3.
Proof.
  intros ask. eexists. eexists.
  split; [vm_compute; reflexivity|].
  split; [reflexivity|].
  split; [vm_compute; reflexivity|].
  repeat split; reflexivity.
Qed.

(** *** Enter in a session tab *)

Lemma set_up_con_connected (w : World) : set_up_con w = Ok (connected w).
Proof.
  unfold set_up_con, note_create.
  erewrite set_common_irc_commands_head; [|reflexivity|reflexivity].
  cbn [bind]. rewrite format_NICK. cbn [bind]. rewrite format_USER.
  destruct w as [s n nw b t]; cbn.
  unfold connected, untwisted_send_cmd, emit, xmap, set_base; cbn.
  rewrite <- !app_assoc. reflexivity.
Qed.

Lemma insert_head (a : nat) (i : index) (d : string) (w : World)
    (x : AreaVi) (r : list AreaVi) (p : nat) :
  note w = x :: r -> wid x = a -> offset_of x i = Ok p ->
  insert a i d w
  = Ok (emit (Insert a i d)
          (set_note
             (with_text
                (substring 0 p (text x) ++ d
                 ++ substring p (String.length (text x) - p) (text x))
                (map (fun m => (fst m, if (p <=? snd m)%nat
                                       then snd m + String.length d
                                       else snd m)) (marks x))
                x :: r) w)).
Proof.
  intros Hn Hw Hp. unfold insert.
  erewrite with_area_head; [|exact Hn|exact Hw].
  unfold insert_text. rewrite Hp. reflexivity.
Qed.

(** The world after a private message from a nick with no tab. *)
Lemma deliver_miss_eq (nick_ user_ host target msg : string) (w : World) :
  sessions_of nick_ w = [] ->
  deliver_user_msg nick_ user_ host target msg w
  = Ok {| self := self w;
          note := with_text (("<" ++ nick_ ++ "> " ++ msg ++ nl) ++ nl ++ nl)
                    [("CHDATA",
                      String.length ("<" ++ nick_ ++ "> " ++ msg ++ nl))]
                    (chat_area (next_wid w) nick_) :: note w;
          next_wid := S (next_wid w);
          base := base w;
          trace := (trace w
                    ++ [Create (next_wid w) nick_;
                        Insert (next_wid w) End_ (nl ++ nl);
                        Insert (next_wid w) (Mark "CHDATA")
                               ("<" ++ nick_ ++ "> " ++ msg ++ nl)])%list |}.
Proof.
  intros Hmiss. unfold deliver_user_msg.
  rewrite (lookup_user_miss _ _ Hmiss). cbn [bind try_except exn_eqb].
  rewrite create_user_chat_spec, format_H1. cbn [bind].
  unfold insee.
  erewrite insert_head; [|reflexivity|reflexivity|reflexivity].
  cbn -[append nl String.length]. unfold emit, set_note.
  cbn -[append nl String.length]. rewrite <- app_assoc. reflexivity.
Qed.

(** What Enter does in a live widget that has the [CHDATA] mark and in
    whose mode the one callback of [<Return>] is the sending to [name]. *)
Lemma press_Return_wired (tab : nat) (name : string) (inp : Input)
    (w : World) (x : AreaVi) (p : nat) (m : Misc) :
  find_area tab w = Some x ->
  bound x "<Return>" = [e1 name] ->
  dict_get (marks x) "CHDATA" = Some p ->
  misc (self w) = Some m ->
  exists w',
    press tab "<Return>" inp w = Ok (true, w')
    /\ trace w'
       = (trace w
          ++ [Insert tab (Mark "CHDATA")
                     ("<" ++ Misc_nick m ++ "> " ++ cmd_like inp ++ nl);
              Dump ("PRIVMSG " ++ name ++ " :" ++ cmd_like inp)])%list.
Proof.
  intros Hlive Hbound Hmark Hmisc.
  unfold press. rewrite Hlive, Hbound. cbn [call_all call].
  unfold send_msg. rewrite Hmisc. cbn [bind]. rewrite format_H1. cbn [bind].
  unfold insee, insert, with_area.
  destruct (update_found tab
              (insert_text (Mark "CHDATA")
                 ("<" ++ Misc_nick m ++ "> " ++ cmd_like inp ++ nl))
              (note w) x
              (with_text
                 (substring 0 p (text x)
                  ++ ("<" ++ Misc_nick m ++ "> " ++ cmd_like inp ++ nl)
                  ++ substring p (String.length (text x) - p) (text x))
                 (map (fun k => (fst k, if (p <=? snd k)%nat
                                 then snd k + String.length
                                   ("<" ++ Misc_nick m ++ "> "
                                        ++ cmd_like inp ++ nl)
                                 else snd k)) (marks x)) x) Hlive)
    as (l' & Hl').
  { unfold insert_text, offset_of. rewrite Hmark. reflexivity. }
  rewrite Hl'. cbn [bind].
  unfold untwisted_send_msg, encode_utf8. rewrite format_PRIVMSG. cbn [bind].
  eexists. split; [reflexivity|].
  cbn [trace untwisted_send_cmd emit set_note].
  rewrite <- app_assoc. reflexivity.
Qed.

(** *** What keeps a session tab what it is *)

Lemma keeps_refl (tab : nat) (name : string) (w : World) : keeps tab name w w.
Proof. unfold keeps. auto. Qed.

Lemma keeps_trans (tab : nat) (name : string) (w1 w2 w3 : World) :
  keeps tab name w1 w2 -> keeps tab name w2 w3 -> keeps tab name w1 w3.
Proof.
  intros (Hn1 & Hm1 & Ht1) (Hn2 & Hm2 & Ht2). unfold keeps.
  split; [lia|]. split; [auto|].
  intros Hlt Hs. apply Ht2; [lia | auto].
Qed.

(** A step that leaves the tabs alone. *)
Lemma keeps_same_note (tab : nat) (name : string) (w w' : World) :
  note w' = note w -> next_wid w' = next_wid w ->
  (misc (self w) <> None -> misc (self w') <> None) ->
  keeps tab name w w'.
Proof.
  intros Hn Hk Hm. unfold keeps, session_tab, find_area.
  rewrite Hn, Hk. auto.
Qed.

(** A step that opens one tab, under the next widget number. *)
Lemma keeps_new (tab : nat) (name : string) (w w' : World) (y : AreaVi) :
  note w' = y :: note w -> wid y = next_wid w ->
  next_wid w' = S (next_wid w) ->
  (misc (self w) <> None -> misc (self w') <> None) ->
  keeps tab name w w'.
Proof.
  intros Hn Hy Hk Hm. unfold keeps, session_tab, find_area.
  rewrite Hn, Hk. split; [lia|]. split; [exact Hm|].
  intros Hlt Hs. cbn [find]. rewrite Hy.
  destruct (Nat.eqb_spec (next_wid w) tab) as [E|_]; [lia | exact Hs].
Qed.

Lemma update_keeps (P : AreaVi -> Prop) (a t : nat)
    (f : AreaVi -> result AreaVi) (l l' : list AreaVi) (x : AreaVi) :
  (forall y y', f y = Ok y' -> wid y' = wid y /\ (P y -> P y')) ->
  update a f l = Ok l' ->
  find (fun z => Nat.eqb (wid z) t) l = Some x -> P x ->
  exists x', find (fun z => Nat.eqb (wid z) t) l' = Some x' /\ P x'.
Proof.
  intros Hf. revert l'. induction l as [|z l IH]; intros l' Hu Hfind HP.
  - discriminate.
  - cbn [update] in Hu. cbn [find] in Hfind.
    destruct (Nat.eqb (wid z) a).
    + destruct (f z) as [z'|] eqn:E; [|discriminate].
      cbn [bind] in Hu. injection Hu as <-.
      destruct (Hf z z' E) as [Hw HPz]. cbn [find]. rewrite Hw.
      destruct (Nat.eqb (wid z) t).
      * injection Hfind as ->. eauto.
      * eauto.
    + destruct (update a f l) as [r'|] eqn:E; [|discriminate].
      cbn [bind] in Hu. injection Hu as <-. cbn [find].
      destruct (Nat.eqb (wid z) t).
      * injection Hfind as ->. eauto.
      * apply (IH r' eq_refl Hfind HP).
Qed.

Lemma keeps_with_area (tab : nat) (name : string) (a : nat)
    (f : AreaVi -> result AreaVi) (w w' : World) :
  (forall y y', f y = Ok y' ->
                wid y' = wid y /\ (tab_ok name y -> tab_ok name y')) ->
  with_area a f w = Ok w' -> keeps tab name w w'.
Proof.
  intros Hf H. unfold with_area in H.
  destruct (update a f (note w)) as [n|] eqn:E; [|discriminate].
  cbn [bind] in H. injection H as <-.
  unfold keeps. cbn [set_note next_wid self].
  split; [lia|]. split; [auto|].
  intros _ (x & Hx & Hok). unfold session_tab, find_area. cbn [set_note note].
  exact (update_keeps (tab_ok name) a tab f (note w) n x Hf E Hx Hok).
Qed.

Lemma dict_get_moved_marks (g : string * nat -> nat)
    (ms : list (string * nat)) (k : string) (p : nat) :
  dict_get ms k = Some p ->
  exists q, dict_get (map (fun m => (fst m, g m)) ms) k = Some q.
Proof.
  induction ms as [|[k1 v1] ms IH]; cbn; [discriminate|].
  destruct (String.eqb k1 k); [eauto | exact IH].
Qed.

Lemma insert_text_tab_ok (name : string) (i : index) (d : string)
    (y y' : AreaVi) :
  insert_text i d y = Ok y' ->
  wid y' = wid y /\ (tab_ok name y -> tab_ok name y').
Proof.
  unfold insert_text. destruct (offset_of y i) as [p|]; [|discriminate].
  cbn [bind]. intros H. injection H as <-. split; [reflexivity|].
  intros (Hm & Hb & q & Hq). split; [exact Hm|]. split; [exact Hb|].
  cbn [marks]. eapply dict_get_moved_marks. exact Hq.
Qed.

Lemma keeps_insert (tab : nat) (name : string) (a : nat) (i : index)
    (d : string) (w w' : World) :
  insert a i d w = Ok w' -> keeps tab name w w'.
Proof.
  unfold insert. intros H.
  destruct (with_area a (insert_text i d) w) as [w1|] eqn:E; [|discriminate].
  cbn [bind] in H. injection H as <-.
  eapply keeps_trans.
  - eapply keeps_with_area; [|exact E]. intros y y'. apply insert_text_tab_ok.
  - apply keeps_same_note; auto.
Qed.

Lemma keeps_chmode_IRC (tab : nat) (name : string) (a : nat) (w w' : World) :
  chmode a "IRC" w = Ok w' -> keeps tab name w w'.
Proof.
  unfold chmode. apply keeps_with_area. intros y y' H. injection H as <-.
  split; [reflexivity|].
  intros (Hm & Hb & Hq). split; [reflexivity|]. split; [|exact Hq].
  unfold bound in *. cbn [set_modes mode hooks]. now rewrite <- Hm.
Qed.

Lemma zmap_frame (ev : event) (h : handler) (w w' : World) :
  zmap ev h w = Ok w' ->
  note w' = note w /\ next_wid w' = next_wid w /\ self w' = self w.
Proof.
  unfold zmap. destruct (remove_binding ev h (base w)); [|discriminate].
  cbn [bind]. intros H. injection H as <-. auto.
Qed.

Lemma zmap_all_frame (evs : list (event * handler)) (w w' : World) :
  zmap_all evs w = Ok w' ->
  note w' = note w /\ next_wid w' = next_wid w /\ self w' = self w.
Proof.
  revert w. induction evs as [|[k v] evs IH]; cbn [zmap_all]; intros w H.
  - injection H as <-. auto.
  - destruct (zmap k v w) as [w1|] eqn:E; [|discriminate]. cbn [bind] in H.
    destruct (zmap_frame _ _ _ _ E) as (Hn & Hk & Hs).
    destruct (IH _ H) as (Hn' & Hk' & Hs').
    repeat split; congruence.
Qed.

Lemma keeps_unset_body (tab : nat) (name : string) (a : nat) (chan : string)
    (w w' : World) :
  unset_body a chan w = Ok w' -> keeps tab name w w'.
Proof.
  unfold unset_body. rewrite events_eq. cbn [bind]. intros H.
  destruct (zmap_all _ w) as [w1|] eqn:E; [|discriminate]. cbn [bind] in H.
  change (format "PART->%s->MEPART" [chan])
    with (Ok ("PART->" ++ chan ++ "->MEPART")) in H.
  cbn [bind] in H.
  destruct (zmap_all_frame _ _ _ E) as (Hn & Hk & Hs).
  destruct (zmap_frame _ _ _ _ H) as (Hn' & Hk' & Hs').
  apply keeps_same_note; congruence.
Qed.

Lemma keeps_deliver_user_msg (tab : nat) (name : string)
    (n u h t m : string) (w w' : World) :
  deliver_user_msg n u h t m w = Ok w' -> keeps tab name w w'.
Proof.
  unfold deliver_user_msg.
  destruct (lookup_user n w) as [a|e]; cbn [bind try_except].
  - rewrite format_H1. cbn [bind]. unfold insee. apply keeps_insert.
  - destruct (exn_eqb KeyError e); [|discriminate].
    rewrite create_user_chat_spec, format_H1. cbn [bind]. unfold insee.
    intros H. eapply keeps_trans; [|eapply keeps_insert; exact H].
    eapply keeps_new; [reflexivity | reflexivity | reflexivity | auto].
Qed.

(** Whatever a handler of the connection does, the tab stays. *)
Lemma run_keeps (tab : nat) (name : string) (h : handler)
    (args : list string) (w w' : World) :
  run h args w = Ok w' -> keeps tab name w w'.
Proof.
  intros H.
  destruct h; cbn [run] in H;
    repeat match type of H with
           | context [match ?l with [] => _ | _ :: _ => _ end] =>
               destruct l; try discriminate H
           end;
    try (match type of H with
         | bind (format ?f ?l) _ = _ =>
             let r := eval cbn in (format f l) in
             change (format f l) with r in H; cbn [bind] in H
         end);
    unfold insee, on_connect_err in H;
    try (eapply keeps_insert; exact H);
    try (injection H as <-; apply keeps_same_note; auto; fail).
  - rewrite set_up_con_connected in H. injection H as <-.
    eapply keeps_new; [reflexivity | reflexivity | reflexivity |].
    intros _. cbn. discriminate.
  - unfold auto_join in H. rewrite auto_join_fold in H. injection H as <-.
    apply keeps_same_note; auto.
  - rewrite create_channel_joined in H. injection H as <-.
    eapply keeps_new; [reflexivity | reflexivity | reflexivity | auto].
  - eapply keeps_deliver_user_msg; exact H.
  - eapply keeps_unset_body; exact H.
Qed.

Lemma run_all_keeps (tab : nat) (name : string) (hs : list handler)
    (args : list string) (w w' : World) :
  run_all hs args w = Ok w' -> keeps tab name w w'.
Proof.
  revert w. induction hs as [|h hs IH]; cbn [run_all]; intros w H.
  - injection H as <-. apply keeps_refl.
  - destruct (run h args w) as [w1|] eqn:E; [|discriminate]. cbn [bind] in H.
    eapply keeps_trans; [eapply run_keeps; exact E | apply IH; exact H].
Qed.

(** Whatever a key callback does, the tab stays. *)
Lemma call_keeps (tab : nat) (name : string) (c : command) (area : nat)
    (inp : Input) (w w' : World) (r : option string) :
  call c area inp w = Ok (r, w') -> keeps tab name w w'.
Proof.
  intros H. destruct c; cbn [call] in H.
  - destruct (chmode area "IRC" w) as [w1|] eqn:E; [|discriminate].
    cbn [bind] in H. injection H as _ <-. eapply keeps_chmode_IRC; exact E.
  - cbn in H. injection H as _ <-. apply keeps_same_note; auto.
  - unfold start_user_chat in H. rewrite create_user_chat_spec in H.
    cbn [bind] in H. injection H as _ <-.
    eapply keeps_new; [reflexivity | reflexivity | reflexivity | auto].
  - unfold complete_nick, gen_next in H.
    destruct (seq (self w)) as [[a [|c cs]]|];
      cbn [bind try_except exn_eqb] in H; try discriminate;
      injection H as _ <-; apply keeps_same_note; auto.
  - cbn in H. injection H as _ <-. apply keeps_same_note; auto.
  - unfold send_msg in H.
    destruct (misc (self w)) as [m|]; [|discriminate]. cbn [bind] in H.
    rewrite format_H1 in H. cbn [bind] in H. unfold insee in H.
    destruct (insert area _ _ w) as [w1|] eqn:E; [|discriminate].
    cbn [bind] in H. unfold untwisted_send_msg, encode_utf8 in H.
    rewrite format_PRIVMSG in H. cbn [bind] in H. injection H as _ <-.
    eapply keeps_trans; [eapply keeps_insert; exact E|].
    apply keeps_same_note; auto.
  - rewrite format_PART in H. cbn [bind] in H. injection H as _ <-.
    apply keeps_same_note; auto.
Qed.

Lemma call_all_keeps (tab : nat) (name : string) (cs : list command)
    (area : nat) (inp : Input) (w w' : World) (r : bool) :
  call_all cs area inp w = Ok (r, w') -> keeps tab name w w'.
Proof.
  revert w. induction cs as [|c cs IH]; cbn [call_all]; intros w H.
  - injection H as _ <-. apply keeps_refl.
  - destruct (call c area inp w) as [[ret w1]|] eqn:E; [|discriminate].
    cbn [bind] in H.
    pose proof (call_keeps tab name _ _ _ _ _ _ E) as K.
    destruct ret.
    + injection H as _ <-. exact K.
    + eapply keeps_trans; [exact K | apply IH; exact H].
Qed.

Lemma find_other_after_filter (a t : nat) (l : list AreaVi) :
  a <> t ->
  find (fun z => Nat.eqb (wid z) t)
       (filter (fun y => negb (Nat.eqb (wid y) a)) l)
  = find (fun z => Nat.eqb (wid z) t) l.
Proof.
  intros Hne. induction l as [|z l IH]; cbn [filter find]; [reflexivity|].
  destruct (Nat.eqb_spec (wid z) a) as [Ea|Ea]; cbn [negb find].
  - destruct (Nat.eqb_spec (wid z) t) as [Et|_]; [congruence | exact IH].
  - now rewrite IH.
Qed.

(** Whatever happens to the session, short of closing the tab, the tab
    stays. *)
Lemma step_keeps (tab : nat) (name : string) (a : action) (w w' : World) :
  a <> Close_tab tab -> step a w = Ok w' -> keeps tab name w w'.
Proof.
  intros Hne H. destruct a as [ev args|area key inp|area|n]; cbn [step] in H.
  - eapply run_all_keeps. exact H.
  - unfold press in H. destruct (find_area area w); [|discriminate].
    destruct (call_all _ area inp w) as [[r w1]|] eqn:E; [|discriminate].
    cbn [bind] in H. injection H as <-. eapply call_all_keeps; exact E.
  - unfold destroy in H. destruct (find_area area w); [|discriminate].
    destruct (call_all _ area _ w) as [[r w1]|] eqn:E; [|discriminate].
    cbn [bind] in H. injection H as <-.
    eapply keeps_trans; [eapply call_all_keeps; exact E|].
    unfold keeps, session_tab, find_area. cbn [set_note note next_wid self].
    split; [lia|]. split; [auto|]. intros _.
    rewrite find_other_after_filter; [auto|]. congruence.
  - injection H as <-. apply keeps_same_note; try reflexivity.
    cbn [set_self self set_misc misc]. destruct (misc (self w)); cbn; congruence.
Qed.

Lemma steps_keeps (tab : nat) (name : string) (l : list action)
    (w w' : World) :
  ~ In (Close_tab tab) l -> steps l w = Ok w' -> keeps tab name w w'.
Proof.
  revert w. induction l as [|a l IH]; cbn [steps]; intros w Hn H.
  - injection H as <-. apply keeps_refl.
  - destruct (step a w) as [w1|] eqn:E; [|discriminate]. cbn [bind] in H.
    eapply keeps_trans.
    + eapply step_keeps; [|exact E]. intros ->. apply Hn. now left.
    + apply IH; [|exact H]. intros Hin. apply Hn. now right.
Qed.

(** C8.  Once the connection is set up ([self.misc] holds the nick
    tracker), every way the program makes a session tab returns: a channel
    tab by [create_channel], a query tab by [create_user_chat], and a
    query tab by [deliver_user_msg] on the first message of a peer.  Take
    the tab so made and any later run of the program that does not close
    it: events of the connection handed to the handlers bound at that
    moment, keys the plugin hooks pressed in any tab, other tabs closed,
    the nick changed.  Enter in that tab then runs the one callback
    [set_common_chan_commands] hooked there: the composed line is
    inserted at the [CHDATA] mark of the tab as [<nick> line] under the
    nick of that moment, [PRIVMSG <name> :<line>] is sent for the name the
    tab was opened for, and the callback returns ['break'], so the key is
    consumed. *)
Theorem enter_sends_echoes_and_consumes (a0 : nat) (name : string)
    (inp : Input) (w : World)
    (Hmisc : misc (self w) <> None) :
  let tab := next_wid w in
  ((exists made, create_channel a0 name w = Ok made)
   /\ (exists made, create_user_chat name w = Ok (tab, made))
   /\ (sessions_of name w = [] ->
       forall user_ host target msg,
       exists made, deliver_user_msg name user_ host target msg w = Ok made))
  /\ forall (made : World) (later : list action) (w1 : World),
       (create_channel a0 name w = Ok made
        \/ create_user_chat name w = Ok (tab, made)
        \/ (sessions_of name w = []
            /\ exists user_ host target msg,
                 deliver_user_msg name user_ host target msg w = Ok made)) ->
       ~ In (Close_tab tab) later ->
       steps later made = Ok w1 ->
       exists m w',
         misc (self w1) = Some m
         /\ press tab "<Return>" inp w1 = Ok (true, w')
         /\ trace w'
            = (trace w1
               ++ [Insert tab (Mark "CHDATA")
                          ("<" ++ Misc_nick m ++ "> " ++ cmd_like inp ++ nl);
                   Dump ("PRIVMSG " ++ name ++ " :" ++ cmd_like inp)])%list.
Proof.
  intros tab. split.
  - split; [|split].
    + rewrite create_channel_joined. eauto.
    + rewrite create_user_chat_spec. eauto.
    + intros Hmiss user_ host target msg.
      rewrite (deliver_miss_eq name user_ host target msg w Hmiss). eauto.
  - intros made later w1 Hmade Hopen Hlater.
    assert (Hstart : session_tab tab name made
                     /\ tab < next_wid made /\ misc (self made) <> None).
    { destruct Hmade as [H|[H|(Hmiss & u & h & t & msg & H)]].
      - rewrite create_channel_joined in H. injection H as <-.
        split; [|split; [cbn; lia | exact Hmisc]].
        exists (channel_area tab name). split.
        + unfold find_area. cbn [joined note find channel_area wid].
          fold tab. now rewrite Nat.eqb_refl.
        + split; [reflexivity|]. split; [reflexivity|].
          exists 0. reflexivity.
      - rewrite create_user_chat_spec in H. injection H as <-.
        split; [|split; [cbn; lia | exact Hmisc]].
        exists (chat_area tab name). split.
        + unfold find_area. cbn [note find chat_area wid].
          fold tab. now rewrite Nat.eqb_refl.
        + split; [reflexivity|]. split; [reflexivity|].
          exists 0. reflexivity.
      - rewrite (deliver_miss_eq name u h t msg w Hmiss) in H.
        injection H as <-.
        split; [|split; [cbn; lia | exact Hmisc]].
        eexists. split.
        + unfold find_area. cbn [note find with_text chat_area wid].
          fold tab. rewrite Nat.eqb_refl. reflexivity.
        + split; [reflexivity|]. split; [reflexivity|].
          eexists. cbn [marks with_text dict_get]. reflexivity. }
    destruct Hstart as (Hs & Hlt & Hm).
    destruct (steps_keeps tab name later made w1 Hopen Hlater)
      as (_ & Hm1 & Hs1).
    specialize (Hm1 Hm). specialize (Hs1 Hlt Hs).
    destruct Hs1 as (x & Hx & _ & Hb & p & Hp).
    destruct (misc (self w1)) as [m|] eqn:Em; [|congruence].
    destruct (press_Return_wired tab name inp w1 x p m Hx Hb Hp Em)
      as (w' & Hpress & Htrace).
    exists m, w'. auto.
Qed.

Lemma enter_sends_echoes_and_consumes_witness :
  let w := connected (init "irc.example.org" 6667 "vy vy vy :vyirc" "vyirc"
                           "PRIVMSG nickserv :identify x" ["#vy"] [] 0) in
  let inp := {| ask_data := EmptyString; cmd_like := "hello";
                candidates := [] |} in
  let later := [Net (Ev "PRIVMSG->#vy") ["ann"; "a"; "example.org"; "hi"];
                Nick_is "vyirc";
                Net (Ev "PMSG") ["Bob"; "b"; "example.org"; "vyirc"; "hey"];
                Close_tab 2] in
  misc (self w) <> None
  /\ exists w1 m w',
       steps later (joined "#vy" w) = Ok w1
       /\ misc (self w1) = Some m
       /\ press 1 "<Return>" inp w1 = Ok (true, w')
       /\ trace w'
          = (trace w1
             ++ [Insert 1 (Mark "CHDATA")
                        ("<" ++ Misc_nick m ++ "> hello" ++ nl);
                 Dump "PRIVMSG #vy :hello"])%list.
Proof.
  intros w inp later. split; [discriminate|].
  destruct (steps later (joined "#vy" w)) as [w1|e] eqn:Hl;
    [|vm_compute in Hl; discriminate Hl].
  destruct (proj2 (enter_sends_echoes_and_consumes 0 "#vy" inp w
                     ltac:(discriminate))
              (joined "#vy" w) later w1) as (m & w' & Hm & Hp & Ht).
  - left. apply create_channel_joined.
  - intros [H|[H|[H|[H|[]]]]]; discriminate H.
  - exact Hl.
  - exists w1, m, w'. auto.
Defined.

End VyircSpec.




(** * Further properties *)

(** ** Strings *)

Module StringFacts.
Import Py.

Lemma length_append (a b : string) :
  String.length (a ++ b) = String.length a + String.length b.
Proof. induction a as [|c a IH]; cbn; [reflexivity | now rewrite IH]. Qed.

Lemma substring_none (n : nat) (s : string) : substring n 0 s = EmptyString.
Proof.
  revert n. induction s as [|c s IH]; intros [|n]; cbn; try reflexivity.
  apply IH.
Qed.

Lemma substring_all (s : string) : substring 0 (String.length s) s = s.
Proof. induction s as [|c s IH]; cbn; [reflexivity | now rewrite IH]. Qed.

Lemma substring_prefix (a b : string) :
  substring 0 (String.length a) (a ++ b) = a.
Proof.
  induction a as [|c a IH]; cbn; [apply substring_none | now rewrite IH].
Qed.

Lemma substring_skip (a b : string) (n m : nat) :
  substring (String.length a + n) m (a ++ b) = substring n m b.
Proof. induction a as [|c a IH]; cbn; [reflexivity | exact IH]. Qed.

End StringFacts.

(** ** caps.py *)

Module CapsMore.
Import Py Caps StringFacts.

Lemma getitem_in_range {A} (t : list A) (i : Z) :
  (0 <= i < Z.of_nat (List.length t))%Z -> exists x, getitem t i = Ok x.
Proof.
  intros H. unfold getitem.
  destruct (Z.ltb_spec i 0) as [?|_]; [lia|].
  destruct (nth_error t (Z.to_nat i)) as [x|] eqn:E; [eauto|].
  apply nth_error_None in E. lia.
Qed.

Lemma for_each_step_returns (conv : string -> string) (map : list nat)
    (l : list Z) (area : AreaVi) (calls : list swap_call) :
  (forall x, In x l -> (0 <= x /\ x + 1 < Z.of_nat (List.length map))%Z) ->
  exists area' calls',
    for_each (step conv map) l (area, calls) = Ok (area', calls')
    /\ List.length calls' = List.length calls + List.length l.
Proof.
  revert area calls. induction l as [|x l IH]; intros area calls H.
  - exists area, calls. cbn. auto.
  - destruct (H x (or_introl eq_refl)) as [H0 H1].
    destruct (getitem_in_range map x) as (i & Hi); [lia|].
    destruct (getitem_in_range map (x + 1)) as (j & Hj); [lia|].
    cbn [for_each step]. rewrite Hi. cbn [bind]. rewrite Hj. cbn [bind].
    destruct (IH (swap area (conv (get area i j)) i j)
                 (calls ++ [{| swap_data := conv (get area i j);
                               swap_from := i; swap_to := j |}])%list)
      as (area' & calls' & Hrun & Hlen).
    { intros y Hy. apply H. now right. }
    exists area', calls'. split; [exact Hrun|].
    rewrite Hlen, length_app. cbn. lia.
Qed.

Lemma range_pairs (n : nat) (x : Z) :
  In x (range 0 (Z.of_nat n - 1) 2) -> (0 <= x /\ x + 1 < Z.of_nat n)%Z.
Proof.
  unfold range. intros H. apply in_map_iff in H.
  destruct H as (k & <- & Hk). apply in_seq in Hk.
  replace (Z.of_nat n - 1 - 0 + 2 - 1)%Z with (Z.of_nat n) in Hk by lia.
  assert (H2 : (2 * (Z.of_nat n / 2) <= Z.of_nat n)%Z)
    by (apply Z.mul_div_le; lia).
  assert (Hp : (0 <= Z.of_nat n / 2)%Z) by (apply Z.div_pos; lia).
  lia.
Qed.

Lemma length_range_pairs (n : nat) :
  List.length (range 0 (Z.of_nat n - 1) 2) = n / 2.
Proof.
  unfold range. rewrite length_map, length_seq.
  replace (Z.of_nat n - 1 - 0 + 2 - 1)%Z with (Z.of_nat n) by lia.
  change 2%Z with (Z.of_nat 2). rewrite <- Nat2Z.inj_div. apply Nat2Z.id.
Qed.

(** X1.  Whatever the length of the ranges tuple of the active widget,
    even or odd, [lower] and [upper] return normally: the loop never
    reads the tuple out of range.  They call [swap] once per complete
    pair, and a trailing single index is ignored. *)
Theorem caps_never_raises (ACTIVE area : AreaVi) :
  (exists area' calls,
      lower ACTIVE area = Ok (area', calls)
      /\ List.length calls = List.length (tag_ranges ACTIVE) / 2)
  /\ (exists area' calls,
         upper ACTIVE area = Ok (area', calls)
         /\ List.length calls = List.length (tag_ranges ACTIVE) / 2).
Proof.
  unfold lower, upper, transform. split.
  - destruct (for_each_step_returns Py.lower (tag_ranges ACTIVE)
                (range 0 (Z.of_nat (List.length (tag_ranges ACTIVE)) - 1) 2)
                area []) as (area' & calls & Hrun & Hlen).
    { intros x. apply range_pairs. }
    exists area', calls. rewrite length_range_pairs in Hlen. auto.
  - destruct (for_each_step_returns Py.upper (tag_ranges ACTIVE)
                (range 0 (Z.of_nat (List.length (tag_ranges ACTIVE)) - 1) 2)
                area []) as (area' & calls & Hrun & Hlen).
    { intros x. apply range_pairs. }
    exists area', calls. rewrite length_range_pairs in Hlen. auto.
Qed.

(** The conversion of the selection of the active widget itself: the
    selected text is replaced, and what replaces it is not selected. *)
Example lower_on_ACTIVE_itself :
  lower {| text := "Hello World"; sel := [6; 11] |}
        {| text := "Hello World"; sel := [6; 11] |}
  = Ok ({| text := "Hello world"; sel := [] |},
        [{| swap_data := "world"; swap_from := 6; swap_to := 11 |}]).
Proof. reflexivity. Qed.

End CapsMore.


(** ** vyirc.py *)

Module VyircMore.
Import Py Vyirc VyircSpec StringFacts.

(** *** Connecting and joining *)

Lemma drive_CONNECT_init (addr_ : string) (port_ : Z)
    (user_ nick_ irccmd_ : string) (channels_ : list string)
    (tabs : list AreaVi) (fresh : nat) :
  drive CONNECT [] (init addr_ port_ user_ nick_ irccmd_ channels_ tabs fresh)
  = Ok (connected (init addr_ port_ user_ nick_ irccmd_ channels_ tabs fresh)).
Proof.
  change (drive CONNECT []
            (init addr_ port_ user_ nick_ irccmd_ channels_ tabs fresh))
    with (w' <- set_up_con
                  (init addr_ port_ user_ nick_ irccmd_ channels_ tabs fresh) ;;
          Ok w').
  rewrite set_up_con_connected. reflexivity.
Qed.

(** *** Writing to the newest tab *)

Lemma bind_ret {A} (c : result A) : (x <- c ;; Ok x) = c.
Proof. destruct c; reflexivity. Qed.

Lemma insert_second (a : nat) (i : index) (d : string) (w : World)
    (y x : AreaVi) (r : list AreaVi) (p : nat) :
  note w = y :: x :: r -> Nat.eqb (wid y) a = false -> wid x = a ->
  offset_of x i = Ok p ->
  insert a i d w
  = Ok (emit (Insert a i d)
          (set_note
             (y :: with_text
                     (substring 0 p (text x) ++ d
                      ++ substring p (String.length (text x) - p) (text x))
                     (map (fun m => (fst m, if (p <=? snd m)%nat
                                            then snd m + String.length d
                                            else snd m)) (marks x))
                     x :: r) w)).
Proof.
  intros Hn Hy Hw Hp. unfold insert, with_area. rewrite Hn.
  cbn [update]. rewrite Hy, Hw, Nat.eqb_refl.
  unfold insert_text. rewrite Hp. reflexivity.
Qed.

(** A string is not itself with something put behind it. *)
Lemma eqb_append_longer (c s : string) :
  s <> EmptyString -> String.eqb (c ++ s) c = false.
Proof.
  intros Hs. induction c as [|x c IH]; cbn.
  - destruct s; [congruence | reflexivity].
  - now rewrite Ascii.eqb_refl, IH.
Qed.

Lemma find_filtered_out (a : nat) (l : list AreaVi) :
  find (fun x => Nat.eqb (wid x) a)
       (filter (fun y => negb (Nat.eqb (wid y) a)) l) = None.
Proof.
  induction l as [|x l IH]; cbn; [reflexivity|].
  destruct (Nat.eqb (wid x) a) eqn:E; cbn; [exact IH|].
  now rewrite E.
Qed.

Lemma update_absent (a : nat) (f : AreaVi -> result AreaVi)
    (l : list AreaVi) :
  find (fun x => Nat.eqb (wid x) a) l = None -> update a f l = Raise TclError.
Proof.
  induction l as [|x l IH]; cbn; [reflexivity|].
  destruct (Nat.eqb (wid x) a); [discriminate|].
  intros H. now rewrite (IH H).
Qed.

(** *** Closing tabs *)

(** X11.  Closing the tab of a joined channel sends [PART <channel>]
    and the tab is gone, but every handler made for the tab is still
    bound to the connection: a message of the channel that arrives before
    the server has confirmed the part finds its handler, and the handler
    fails on the missing widget. *)
Theorem close_channel_tab (a0 : nat) (chan : string) (inp : Input) (w : World)
    (n u h m : string) :
  let tab := next_wid w in
  exists w',
    destroy tab inp (joined chan w) = Ok w'
    /\ create_channel a0 chan w = Ok (joined chan w)
    /\ trace w' = (trace (joined chan w) ++ [Dump ("PART " ++ chan)])%list
    /\ find_area tab w' = None
    /\ base w' = (base w ++ channel_bindings tab chan)%list
    /\ run (l1 tab) [n; u; h; m] w' = Raise TclError.
Proof.
  intros tab. unfold destroy, find_area.
  cbn [joined note find channel_area wid]. fold tab. rewrite Nat.eqb_refl.
  change (on_destroy (channel_area tab chan)) with [part_c chan].
  cbn [call_all call bind]. rewrite format_PART. cbn [bind].
  eexists. split; [reflexivity|].
  split; [apply create_channel_joined|].
  split; [reflexivity|]. split; [|split].
  - cbn [set_note note untwisted_send_cmd emit]. apply find_filtered_out.
  - reflexivity.
  - cbn [run]. rewrite format_H1. cbn [bind].
    unfold insee, insert, with_area.
    rewrite update_absent; [reflexivity|].
    cbn [set_note note untwisted_send_cmd emit]. apply find_filtered_out.
Qed.

(** X12.  A query tab has nothing bound to its closing: closing the tab
    a private chat was opened in sends nothing and binds nothing; the tab
    is gone. *)
Theorem close_query_tab (peer : string) (inp : Input) (w : World) :
  exists w1 w2,
    create_user_chat peer w = Ok (next_wid w, w1)
    /\ destroy (next_wid w) inp w1 = Ok w2
    /\ trace w2 = trace w1
    /\ sent w2 = sent w
    /\ base w2 = base w
    /\ find_area (next_wid w) w2 = None.
Proof.
  rewrite create_user_chat_spec. eexists. eexists.
  split; [reflexivity|].
  unfold destroy, find_area. cbn [note find chat_area wid].
  rewrite Nat.eqb_refl. cbn [on_destroy call_all bind].
  split; [reflexivity|]. split; [reflexivity|]. split; [|split].
  - unfold sent. cbn [set_note trace]. rewrite flat_map_app. cbn.
    now rewrite app_nil_r.
  - reflexivity.
  - cbn [set_note note]. apply find_filtered_out.
Qed.

(** *** Private chats *)

(** X13.  After the first private message of a nick has opened its tab,
    a further message under any spelling of the nick opens no tab: it is
    found, and its line is written to the same tab right below the
    first, above the two newlines the tab ends with.  The tab keeps the
    spelling it was opened with; the line shows the spelling the message
    came with. *)
Theorem deliver_again_reuses_the_tab
    (nick_ v u1 h1 t1 m1 u2 h2 t2 m2 : string) (w : World)
    (Hmiss : sessions_of nick_ w = [])
    (Hvariant : lower v = lower nick_) :
  let line1 := "<" ++ nick_ ++ "> " ++ m1 ++ nl in
  let line2 := "<" ++ v ++ "> " ++ m2 ++ nl in
  exists w1 w2,
    deliver_user_msg nick_ u1 h1 t1 m1 w = Ok w1
    /\ deliver_user_msg v u2 h2 t2 m2 w1 = Ok w2
    /\ note w2
       = with_text (line1 ++ line2 ++ nl ++ nl)
                   [("CHDATA", String.length line1 + String.length line2)]
                   (chat_area (next_wid w) nick_) :: note w
    /\ trace w2
       = (trace w1 ++ [Insert (next_wid w) (Mark "CHDATA") line2])%list
    /\ next_wid w2 = next_wid w1.
Proof.
  intros line1 line2.
  rewrite (deliver_miss_eq nick_ u1 h1 t1 m1 w Hmiss). fold line1.
  eexists. eexists. split; [reflexivity|].
  set (x := with_text (line1 ++ nl ++ nl) [("CHDATA", String.length line1)]
                      (chat_area (next_wid w) nick_)).
  set (w1 := {| self := self w; note := x :: note w;
                next_wid := S (next_wid w); base := base w;
                trace := _ |}).
  assert (Hlook : lookup_user v w1 = Ok (next_wid w)).
  { destruct (lookup_user_present v w1 x) as (a & Ha);
      [now left | now rewrite Hvariant |].
    destruct (lookup_user_Ok _ _ _ Ha) as (y & Hy & Hw & Hl).
    destruct Hy as [<-|Hy]; [now rewrite Ha, <- Hw|].
    exfalso.
    assert (Hin : In y (sessions_of nick_ w)).
    { unfold sessions_of. apply filter_In. split; [exact Hy|].
      apply String.eqb_eq. now rewrite Hl. }
    rewrite Hmiss in Hin. contradiction. }
  unfold deliver_user_msg. rewrite Hlook. cbn [bind try_except].
  rewrite format_H1. cbn [bind]. fold line2. unfold insee.
  rewrite (insert_head (next_wid w) (Mark "CHDATA") line2 w1 x (note w)
             (String.length line1) eq_refl eq_refl eq_refl).
  split; [reflexivity|].
  cbn [note emit set_note trace next_wid].
  split; [|split; reflexivity].
  unfold x, with_text.
  cbn [wid filename text marks modes mode hooks on_destroy].
  assert (Hsuf : substring (String.length line1)
                   (String.length (line1 ++ nl ++ nl) - String.length line1)
                   (line1 ++ nl ++ nl) = nl ++ nl).
  { rewrite <- (Nat.add_0_r (String.length line1)) at 1.
    rewrite substring_skip, length_append.
    replace (String.length line1 + String.length (nl ++ nl)
             - String.length line1) with (String.length (nl ++ nl)) by lia.
    apply substring_all. }
  rewrite substring_prefix, Hsuf.
  cbn [map fst snd]. rewrite Nat.leb_refl. reflexivity.
Qed.

Lemma deliver_again_reuses_the_tab_witness :
  let w := connected (init "irc.example.org" 6667 "vy vy vy :vyirc" "vyirc"
                           "PRIVMSG nickserv :identify x" [] [] 0) in
  exists w1 w2,
    deliver_user_msg "Bob" "bob" "example.org" "vyirc" "hi" w = Ok w1
    /\ deliver_user_msg "BOB" "bob" "example.org" "vyirc" "there" w1 = Ok w2
    /\ map filename (note w2) = ["Bob"; "irc.example.org"]
    /\ option_map text (find_area 1 w2)
       = Some ("<Bob> hi" ++ nl ++ "<BOB> there" ++ nl ++ nl ++ nl).
Proof.
  intros w.
  destruct (deliver_again_reuses_the_tab
              "Bob" "BOB" "bob" "example.org" "vyirc" "hi"
              "bob" "example.org" "vyirc" "there" w eq_refl eq_refl)
    as (w1 & w2 & H1 & H2 & Hnote & _).
  exists w1, w2. split; [exact H1|]. split; [exact H2|].
  unfold find_area. rewrite Hnote. split; reflexivity.
Defined.

(** X14.  The tab a private chat is started in is wired to the nick
    typed at the prompt: Enter in the new tab echoes the line there and
    sends it as [PRIVMSG <nick> :<line>], and the key is consumed. *)
Theorem started_chat_sends_to_its_nick (a0 : nat) (asked typed : Input)
    (w : World) (m : Misc) (Hmisc : misc (self w) = Some m) :
  let tab := next_wid w in
  exists w1 w2,
    start_user_chat a0 asked w = Ok w1
    /\ press tab "<Return>" typed w1 = Ok (true, w2)
    /\ trace w2
       = (trace w
          ++ [Create tab (ask_data asked);
              Insert tab End_ (nl ++ nl);
              Insert tab (Mark "CHDATA")
                     ("<" ++ Misc_nick m ++ "> " ++ cmd_like typed ++ nl);
              Dump ("PRIVMSG " ++ ask_data asked ++ " :" ++ cmd_like typed)])%list.
Proof.
  intros tab. unfold start_user_chat. rewrite create_user_chat_spec.
  cbn [bind]. eexists. eexists. split; [reflexivity|].
  unfold press, find_area. cbn [note find chat_area wid]. fold tab.
  rewrite Nat.eqb_refl.
  change (bound _ "<Return>") with [e1 (ask_data asked)].
  cbn [call_all call]. unfold send_msg. cbn [self]. rewrite Hmisc.
  cbn [bind]. rewrite format_H1. cbn [bind]. unfold insee.
  erewrite insert_head; [|reflexivity|reflexivity|reflexivity].
  cbn [bind]. unfold untwisted_send_msg, encode_utf8.
  rewrite format_PRIVMSG. cbn [bind].
  split; [reflexivity|].
  cbn [trace untwisted_send_cmd emit set_note].
  rewrite <- !app_assoc. reflexivity.
Qed.

Lemma started_chat_sends_to_its_nick_witness :
  let w := connected (init "irc.example.org" 6667 "vy vy vy :vyirc" "vyirc"
                           "PRIVMSG nickserv :identify x" [] [] 0) in
  let asked := {| ask_data := "Bob"; cmd_like := EmptyString;
                  candidates := [] |} in
  let typed := {| ask_data := EmptyString; cmd_like := "hello";
                  candidates := [] |} in
  exists w1 w2,
    press 0 "<Control-c>" asked w = Ok (false, w1)
    /\ press 1 "<Return>" typed w1 = Ok (true, w2)
    /\ sent w2 = ["NICK vyirc"; "USER vy vy vy :vyirc"; "PRIVMSG Bob :hello"].
Proof.
  intros w asked typed.
  destruct (started_chat_sends_to_its_nick 0 asked typed w
              {| Misc_nick := EmptyString |} eq_refl)
    as (w1 & w2 & H1 & H2 & Ht).
  exists w1, w2. split; [|split; [exact H2|]].
  - unfold press. cbn [find_area w connected note find network_area wid init
                        xmap set_base next_wid Nat.eqb].
    change (bound _ "<Control-c>") with [start_user_chat_c].
    cbn [call_all call]. rewrite H1. reflexivity.
  - unfold sent. rewrite Ht. reflexivity.
Defined.

(** *** Leaving a channel *)

Lemma event_eqb_refl (ev : event) : event_eqb ev ev = true.
Proof. destruct ev; cbn; try reflexivity. apply String.eqb_refl. Qed.

Lemma handler_eqb_refl (h : handler) : handler_eqb h h = true.
Proof.
  destruct h; cbn; rewrite ?Nat.eqb_refl, ?String.eqb_refl; reflexivity.
Qed.

(** Handlers that are the same object belong to the same tab. *)
Lemma handler_eqb_of_area (a : nat) (h' h : handler) :
  handler_eqb h' h = true -> of_area a h' = of_area a h.
Proof.
  destruct h', h; cbn; try discriminate; try reflexivity; intros H;
    try (apply andb_prop in H; destruct H as [H _]);
    apply Nat.eqb_eq in H; now subst.
Qed.

Lemma remove_binding_skip (a : nat) (ev : event) (h : handler)
    (b l : list (event * handler)) :
  (forall kv, In kv b -> of_area a (snd kv) = false) ->
  of_area a h = true ->
  remove_binding ev h (b ++ l)
  = (l' <- remove_binding ev h l ;; Ok (b ++ l')%list).
Proof.
  intros Hb Hh. induction b as [|[k v] b IH]; cbn [app remove_binding].
  - now destruct (remove_binding ev h l).
  - destruct (handler_eqb v h) eqn:E.
    + apply (handler_eqb_of_area a) in E.
      pose proof (Hb (k, v) (or_introl eq_refl)) as Hv. cbn [snd] in Hv.
      congruence.
    + rewrite andb_false_r, IH by (intros kv H; apply Hb; now right).
      now destruct (remove_binding ev h l).
Qed.

Lemma zmap_own_head (a : nat) (ev : event) (h : handler)
    (b rest : list (event * handler)) (w : World) :
  (forall kv, In kv b -> of_area a (snd kv) = false) ->
  of_area a h = true ->
  base w = (b ++ (ev, h) :: rest)%list ->
  zmap ev h w = Ok (set_base (b ++ rest)%list w).
Proof.
  intros Hb Hh Hbase. unfold zmap.
  rewrite Hbase, (remove_binding_skip a) by assumption.
  cbn [remove_binding]. rewrite event_eqb_refl, handler_eqb_refl.
  reflexivity.
Qed.

Lemma zmap_all_own (a : nat) (evs b rest : list (event * handler))
    (w : World) :
  (forall kv, In kv b -> of_area a (snd kv) = false) ->
  (forall kv, In kv evs -> of_area a (snd kv) = true) ->
  base w = (b ++ evs ++ rest)%list ->
  zmap_all evs w = Ok (set_base (b ++ rest)%list w).
Proof.
  intros Hb. revert w. induction evs as [|[k v] evs IH]; intros w He Hbase.
  - cbn in *. rewrite <- Hbase. now destruct w.
  - cbn [zmap_all].
    rewrite (zmap_own_head a k v b (evs ++ rest) w Hb
               (He (k, v) (or_introl eq_refl)) Hbase).
    cbn [bind]. rewrite (IH (set_base (b ++ evs ++ rest)%list w));
      [reflexivity | intros kv H; apply He; now right | reflexivity].
Qed.

(** What [unset] leaves of the world a channel was joined in. *)
Lemma unset_body_joined (chan : string) (w : World) :
  (forall kv, In kv (base w) -> of_area (next_wid w) (snd kv) = false) ->
  unset_body (next_wid w) chan (joined chan w)
  = Ok (set_base
          (base w ++ [(Ev ("KICK->" ++ chan ++ "->ME"),
                       unset (next_wid w) chan)])%list
          (joined chan w)).
Proof.
  intros Hfresh. unfold unset_body. rewrite events_eq. cbn [bind].
  rewrite (zmap_all_own (next_wid w) _ (base w)
             [(Ev ("PART->" ++ chan ++ "->MEPART"), unset (next_wid w) chan);
              (Ev ("KICK->" ++ chan ++ "->ME"), unset (next_wid w) chan)]
             (joined chan w) Hfresh).
  - cbn [bind].
    change (format "PART->%s->MEPART" [chan])
      with (Ok ("PART->" ++ chan ++ "->MEPART")).
    cbn [bind].
    rewrite (zmap_own_head (next_wid w) _ _ (base w)
               [(Ev ("KICK->" ++ chan ++ "->ME"), unset (next_wid w) chan)]
               _ Hfresh); [reflexivity | | reflexivity].
    cbn. apply Nat.eqb_refl.
  - intros kv H. cbn in H.
    repeat (destruct H as [<-|H]; [cbn; apply Nat.eqb_refl|]).
    contradiction.
  - reflexivity.
Qed.

(** X15.  When a channel is left, [unset] takes away the handlers made
    for the channel's tab and nothing else: with no older binding made
    for that tab, the bindings of the connection are afterwards the ones
    from before the join, in their order, followed by the one binding of
    [unset] to the kick event; the tabs and the lines sent are as they
    were. *)
Theorem unset_takes_only_its_own (a0 : nat) (chan : string) (w : World)
    (Hfresh : forall kv, In kv (base w) ->
                         of_area (next_wid w) (snd kv) = false) :
  exists w',
    create_channel a0 chan w = Ok (joined chan w)
    /\ unset_body (next_wid w) chan (joined chan w) = Ok w'
    /\ base w'
       = (base w ++ [(Ev ("KICK->" ++ chan ++ "->ME"),
                      unset (next_wid w) chan)])%list
    /\ note w' = note (joined chan w)
    /\ trace w' = trace (joined chan w).
Proof.
  eexists. split; [apply create_channel_joined|].
  split; [apply unset_body_joined; exact Hfresh|].
  repeat split.
Qed.

Lemma connected_init_fresh (addr_ : string) (port_ : Z)
    (user_ nick_ irccmd_ : string) (channels_ : list string)
    (tabs : list AreaVi) (fresh a : nat) (kv : event * handler) :
  In kv (base (connected
                 (init addr_ port_ user_ nick_ irccmd_ channels_ tabs fresh))) ->
  of_area a (snd kv) = false.
Proof.
  cbn. intros H.
  repeat (destruct H as [<-|H]; [reflexivity|]). contradiction.
Qed.

Lemma unset_takes_only_its_own_witness :
  let w := connected (init "irc.example.org" 6667 "vy vy vy :vyirc" "vyirc"
                           "PRIVMSG nickserv :identify x" ["#vy"] [] 0) in
  exists w',
    unset_body 1 "#vy" (joined "#vy" w) = Ok w'
    /\ base w' = (base w ++ [(Ev "KICK->#vy->ME", unset 1 "#vy")])%list.
Proof.
  intros w.
  destruct (unset_takes_only_its_own 0 "#vy" w) as (w' & _ & Hrun & Hb & _).
  - intros kv. apply connected_init_fresh.
  - exists w'. split; [exact Hrun | exact Hb].
Defined.

(** *** A session from its start *)

Section Session.
Variables (addr_ : string) (port_ : Z) (user_ nick_ irccmd_ : string).
Variables (channels_ : list string) (tabs : list AreaVi) (fresh : nat).

Let started : World :=
  init addr_ port_ user_ nick_ irccmd_ channels_ tabs fresh.


(** X5.  Once connected, a [PING] of the server is answered by exactly
    one line, [PONG :<token>] with the token of the ping; no tab is
    written to and no binding changes. *)
Theorem ping_is_answered_with_pong (prefix servaddr : string) :
  exists w',
    drive (Ev "PING") [prefix; servaddr] (connected started) = Ok w'
    /\ trace w'
       = (trace (connected started) ++ [Dump ("PONG :" ++ servaddr)])%list
    /\ note w' = note (connected started)
    /\ base w' = base (connected started).
Proof.
  eexists. split.
  - unfold drive. cbn. rewrite append_empty. reflexivity.
  - repeat split.
Qed.

Lemma drive_376 (args : list string) (w : World) :
  handlers_of (Ev "376") (base w) = [irccmd_h; auto_join_h] ->
  drive (Ev "376") args w
  = Ok {| self := self w; note := note w; next_wid := next_wid w;
          base := base w;
          trace := (trace w
                    ++ Dump (irccmd (self w))
                       :: map (fun c => Dump ("JOIN " ++ c))
                              (channels (self w)))%list |}.
Proof.
  intros Hh. unfold drive. rewrite Hh. cbn [run_all run bind].
  unfold auto_join. rewrite auto_join_fold.
  cbn [bind untwisted_send_cmd emit self note next_wid base trace].
  rewrite <- app_assoc. reflexivity.
Qed.

(** X6.  Each further end-of-MOTD event repeats the login commands: the
    two 376 handlers stay bound, so after two such events the post-login
    command and the JOINs have been sent twice, in the same order. *)
Theorem motd_again_repeats_autojoin (args1 args2 : list string) :
  exists w',
    steps [Net CONNECT []; Net (Ev "376") args1; Net (Ev "376") args2] started
    = Ok w'
    /\ sent w'
       = ([("NICK " ++ nick_)%string; ("USER " ++ user_)%string]
          ++ (irccmd_ :: map (fun c => ("JOIN " ++ c)%string) channels_)
          ++ (irccmd_ :: map (fun c => ("JOIN " ++ c)%string) channels_))%list
    /\ base w' = base (connected started).
Proof.
  unfold started. cbn [steps step]. rewrite drive_CONNECT_init. cbn [bind].
  rewrite drive_376 by reflexivity. cbn [bind].
  rewrite drive_376 by reflexivity. cbn [bind].
  eexists. split; [reflexivity|]. split; [|reflexivity].
  unfold sent.
  cbn [trace self connected init xmap set_base set_misc irccmd channels
       nick user].
  rewrite !flat_map_app. cbn [flat_map app].
  rewrite !(sent_Dumps (fun c => "JOIN " ++ c)). reflexivity.
Qed.

(** X7.  In the network tab, [<Control-e>] sends the text typed at the
    prompt as it is, as one line, and lets the key go on; the session
    binds nothing to [<Return>] there, so Enter sends and writes
    nothing. *)
Theorem network_tab_keys (inp : Input) :
  press fresh "<Control-e>" inp (connected started)
  = Ok (false, untwisted_send_cmd (ask_data inp) (connected started))
  /\ press fresh "<Return>" inp (connected started)
     = Ok (false, connected started).
Proof.
  unfold press, find_area. cbn. rewrite Nat.eqb_refl. split; reflexivity.
Qed.

(** The handlers an event of the channel finds bound after the join. *)
Lemma channel_handlers (chan : string) :
  let b := base (joined chan (connected started)) in
  handlers_of (Ev ("PRIVMSG->" ++ chan)) b = [l1 (S fresh)]
  /\ handlers_of (Ev ("332->" ++ chan)) b = [l2 (S fresh)]
  /\ handlers_of (Ev ("PART->" ++ chan)) b = [l3 (S fresh) chan]
  /\ handlers_of (Ev ("JOIN->" ++ chan)) b = [l4 (S fresh) chan]
  /\ handlers_of (Ev ("353->" ++ chan)) b = [l6 (S fresh)]
  /\ handlers_of (Ev ("KICK->" ++ chan)) b = [l8 (S fresh) chan].
Proof.
  assert (H1 : String.eqb (chan ++ "->MEPART") chan = false)
    by (apply eqb_append_longer; discriminate).
  assert (H2 : String.eqb (chan ++ "->ME") chan = false)
    by (apply eqb_append_longer; discriminate).
  cbn. rewrite ?String.eqb_refl, ?H1, ?H2. cbn.
  repeat split; reflexivity.
Qed.

(** X9.  After the join of a channel, every event of that channel is
    written to the channel's tab and nowhere else: a message, the topic,
    a join, a part, the names list and a kick each put their one line at
    the [CHDATA] mark of the tab, above the two newlines the tab starts
    with; nothing is sent and no binding changes. *)
Theorem channel_events_reach_the_tab (chan n u h m t prefix md peers : string) :
  let wj := joined chan (connected started) in
  let tab := S fresh in
  (forall line,
      exists w',
        insee tab (Mark "CHDATA") line wj = Ok w'
        /\ trace w' = (trace wj ++ [Insert tab (Mark "CHDATA") line])%list
        /\ note w'
           = with_text (line ++ nl ++ nl) [("CHDATA", String.length line)]
                       (channel_area tab chan)
             :: note (connected started)
        /\ base w' = base wj)
  /\ drive (Ev "MEJOIN") [chan] (connected started) = Ok wj
  /\ drive (Ev ("PRIVMSG->" ++ chan)) [n; u; h; m] wj
     = insee tab (Mark "CHDATA") ("<" ++ n ++ "> " ++ m ++ nl) wj
  /\ drive (Ev ("332->" ++ chan)) [prefix; n; m] wj
     = insee tab (Mark "CHDATA") ("Topic :" ++ m ++ nl) wj
  /\ drive (Ev ("PART->" ++ chan)) [n; u; h] wj
     = insee tab (Mark "CHDATA")
             (">>> " ++ n ++ " has left " ++ chan ++ " <<<" ++ nl) wj
  /\ drive (Ev ("JOIN->" ++ chan)) [n; u; h] wj
     = insee tab (Mark "CHDATA")
             (">>> " ++ n ++ " has joined " ++ chan ++ " <<<" ++ nl) wj
  /\ drive (Ev ("353->" ++ chan)) [prefix; n; md; peers] wj
     = insee tab (Mark "CHDATA") ("Peers:" ++ peers ++ nl) wj
  /\ drive (Ev ("KICK->" ++ chan)) [n; u; h; t; m] wj
     = insee tab (Mark "CHDATA")
             (">>> " ++ n ++ " has kicked " ++ t ++ " from " ++ chan
                     ++ " (" ++ m ++ ") <<<" ++ nl) wj.
Proof.
  intros wj tab.
  destruct (channel_handlers chan) as (E1 & E2 & E3 & E4 & E6 & E8).
  split; [|split].
  - intros line. unfold insee.
    rewrite (insert_head tab (Mark "CHDATA") line wj (channel_area tab chan)
               (note (connected started)) 0 eq_refl eq_refl eq_refl).
    eexists. split; [reflexivity|]. repeat split.
  - unfold drive.
    change (handlers_of (Ev "MEJOIN") (base (connected started)))
      with [irc_l1 fresh].
    cbn [run_all run]. rewrite create_channel_joined. reflexivity.
  - unfold drive. fold wj in E1, E2, E3, E4, E6, E8.
    rewrite E1, E2, E3, E4, E6, E8. cbn [run_all].
    rewrite !bind_ret. repeat split; reflexivity.
Qed.

Lemma eqb_S_n (n : nat) : Nat.eqb (S n) n = false.
Proof. apply Nat.eqb_neq. lia. Qed.

(** X10.  Mode changes and our own nick changes are not told apart by
    channel: with two channels joined, a [MODE] event about any channel
    (joined or not) and a [MENICK] event are each written to the tabs of
    both channels, the older tab first. *)
Theorem mode_and_nick_reach_every_tab (c1 c2 n u h ch md t nb : string) :
  let w2 := joined c2 (joined c1 (connected started)) in
  (exists w',
      drive (Ev "MODE") [n; u; h; ch; md; t] w2 = Ok w'
      /\ trace w'
         = (trace w2
            ++ [Insert (S fresh) (Mark "CHDATA")
                  (">>> " ++ n ++ " sets mode " ++ ch ++ " " ++ md ++ " on "
                          ++ t ++ " <<<" ++ nl);
                Insert (S (S fresh)) (Mark "CHDATA")
                  (">>> " ++ n ++ " sets mode " ++ ch ++ " " ++ md ++ " on "
                          ++ t ++ " <<<" ++ nl)])%list)
  /\ (exists w',
         drive (Ev "MENICK") [n; u; h; nb] w2 = Ok w'
         /\ trace w'
            = (trace w2
               ++ [Insert (S fresh) (Mark "CHDATA")
                     (">>> " ++ n ++ " is now known as " ++ nb ++ " <<<" ++ nl);
                   Insert (S (S fresh)) (Mark "CHDATA")
                     (">>> " ++ n ++ " is now known as " ++ nb ++ " <<<"
                             ++ nl)])%list).
Proof.
  intros w2. split.
  - unfold drive.
    change (handlers_of (Ev "MODE") (base w2))
      with [l9 (S fresh); l9 (S (S fresh))].
    cbn [run_all run].
    change (format H9 [n; ch; md; t])
      with (Ok (">>> " ++ n ++ " sets mode " ++ ch ++ " " ++ md ++ " on "
                       ++ t ++ " <<<" ++ nl)).
    cbn [bind]. unfold insee.
    erewrite insert_second;
      [|reflexivity|apply eqb_S_n|reflexivity|reflexivity].
    cbn [bind].
    erewrite insert_head; [|reflexivity|reflexivity|reflexivity].
    eexists. split; [reflexivity|].
    cbn [trace emit set_note]. rewrite <- !app_assoc. reflexivity.
  - unfold drive.
    change (handlers_of (Ev "MENICK") (base w2))
      with [l5 (S fresh); l5 (S (S fresh))].
    cbn [run_all run].
    change (format H5 [n; nb])
      with (Ok (">>> " ++ n ++ " is now known as " ++ nb ++ " <<<" ++ nl)).
    cbn [bind]. unfold insee.
    erewrite insert_second;
      [|reflexivity|apply eqb_S_n|reflexivity|reflexivity].
    cbn [bind].
    erewrite insert_head; [|reflexivity|reflexivity|reflexivity].
    eexists. split; [reflexivity|].
    cbn [trace emit set_note]. rewrite <- !app_assoc. reflexivity.
Qed.

(** X16.  A channel that was left and is joined again, its first tab
    still open, gets a second tab of the same name.  The messages of the
    channel are then written to the newer tab only, and two handlers are
    bound to the kick event: the [unset] of the first join, left over,
    before the one of the second. *)
Theorem rejoin_opens_second_tab (chan : string) (args : list string) :
  let a1 := S fresh in
  let a2 := S (S fresh) in
  exists w',
    steps [Net CONNECT []; Net (Ev "MEJOIN") [chan];
           Net (Ev ("PART->" ++ chan ++ "->MEPART")) args;
           Net (Ev "MEJOIN") [chan]] started = Ok w'
    /\ note w'
       = channel_area a2 chan :: channel_area a1 chan
         :: network_area fresh addr_ :: tabs
    /\ handlers_of (Ev ("PRIVMSG->" ++ chan)) (base w') = [l1 a2]
    /\ handlers_of (Ev ("KICK->" ++ chan ++ "->ME")) (base w')
       = [unset a1 chan; unset a2 chan].
Proof.
  intros a1 a2. unfold started. cbn [steps step].
  rewrite drive_CONNECT_init. cbn [bind].
  set (wc := connected _).
  assert (Hj : forall w, handlers_of (Ev "MEJOIN") (base w) = [irc_l1 fresh] ->
                         drive (Ev "MEJOIN") [chan] w = Ok (joined chan w)).
  { intros w Hh. unfold drive. rewrite Hh. cbn [run_all run].
    rewrite create_channel_joined. reflexivity. }
  rewrite (Hj wc) by reflexivity. cbn [bind].
  assert (H1 : String.eqb (chan ++ "->MEPART") chan = false)
    by (apply eqb_append_longer; discriminate).
  assert (H2 : String.eqb (chan ++ "->ME") chan = false)
    by (apply eqb_append_longer; discriminate).
  assert (Hu : drive (Ev ("PART->" ++ chan ++ "->MEPART")) args
                     (joined chan wc)
               = unset_body a1 chan (joined chan wc)).
  { unfold drive.
    assert (Hh : handlers_of (Ev ("PART->" ++ chan ++ "->MEPART"))
                             (base (joined chan wc)) = [unset a1 chan]).
    { cbn. rewrite ?String.eqb_refl, ?(String.eqb_sym chan), ?H1. cbn.
      rewrite ?String.eqb_refl. reflexivity. }
    rewrite Hh. cbn [run_all run]. apply bind_ret. }
  rewrite Hu.
  change a1 with (next_wid wc).
  rewrite unset_body_joined by (intros kv; apply connected_init_fresh).
  cbn [bind].
  rewrite Hj by (cbn; rewrite ?String.eqb_refl; reflexivity).
  cbn [bind]. eexists. split; [reflexivity|].
  split; [reflexivity|]. split.
  - cbn. rewrite ?String.eqb_refl, ?H1, ?H2. cbn.
    rewrite ?String.eqb_refl. reflexivity.
  - cbn. rewrite ?String.eqb_refl, ?(String.eqb_sym chan), ?H1, ?H2. cbn.
    rewrite ?String.eqb_refl. reflexivity.
Qed.

End Session.

End VyircMore.
